(** * X-Ray SDK: execution builder and in-memory trace store

    A shallow embedding of [src/lib/xray]: the trace data model ([types.ts]),
    the execution builder ([sdk.ts]: [XRayInstance] and the step sub-builder
    returned by [step]) and the in-memory store ([store.ts]:
    [InMemoryXRayStore] and its singleton [xrayStore]).

    JavaScript objects are reference values.  Executions, steps and the
    [steps] arrays of executions live in a heap and are named by references,
    so that the aliasing the code creates (the store keeps the very object it
    is given, [{...this.execution}] copies one level only) is part of the
    model.  [Date.now()] and [Math.random()] are oracles of the world: every
    call consumes the next reading.  A callback either returns or throws; a
    thrown exception unwinds to the caller and leaves the effects performed
    so far in place. *)

From Stdlib Require Import ZArith List String Bool Lia Permutation Sorted DecimalString.
Import ListNotations.
Local Open Scope Z_scope.

(* ------------------------------------------------------------------ *)
(** ** Trace data model ([types.ts]) *)

Inductive StepStatus := pending | running | completed | failed.

Inductive StepType := llm | search | filter | rank | transform | custom.

Definition StepStatus_eqb (a b : StepStatus) : bool :=
  match a, b with
  | pending, pending | running, running
  | completed, completed | failed, failed => true
  | _, _ => false
  end.

(** Payloads the SDK never inspects ([unknown] in the source). *)
#[local] Unset Elimination Schemes.
Inductive Value :=
| VNull
| VNum (n : Z)
| VStr (s : string)
| VList (vs : list Value)
| VRecord (fields : list (string * Value)).
#[local] Set Elimination Schemes.

Record FilterResult := {
  passed : bool;
  detail : string
}.

Record CandidateEvaluation := {
  cand_id : string;
  cand_data : Value;
  filterResults : list (string * FilterResult);
  qualified : bool;
  score : option Z;
  scoreBreakdown : option (list (string * Z));
  rank_ : option Z
}.

Record StepMetrics := {
  inputCount : option Z;
  outputCount : option Z;
  passedCount : option Z;
  failedCount : option Z;
  duration : option Z
}.

Record FilterSpec := {
  filter_value : Value;
  filter_rule : string
}.

(** [XRayStep]; the builder's [stepData] is a [Partial<XRayStep>] cast to
    [XRayStep], so every field [step] does not set is optional here. *)
Record XRayStep := {
  step_id : string;
  step_name : string;
  step_type : StepType;
  step_status : StepStatus;
  step_startTime : Z;
  step_endTime : option Z;
  step_input : option Value;
  step_output : option Value;
  step_reasoning : option string;
  step_metrics : option StepMetrics;
  step_evaluations : option (list CandidateEvaluation);
  step_filtersApplied : option (list (string * FilterSpec));
  step_metadata : option (list (string * Value));
  step_error : option string
}.

(** References into the heap. *)
Definition ref := nat.

(** [XRayExecution]; [exec_steps] is a reference to the array object.  The
    [context] object and the [tags] array are kept by value: nothing below
    depends on their identity. *)
Record XRayExecution := {
  exec_id : string;
  exec_name : string;
  exec_description : option string;
  exec_startTime : Z;
  exec_endTime : option Z;
  exec_status : StepStatus;
  exec_steps : ref;
  exec_context : option (list (string * Value));
  exec_finalOutput : option Value;
  exec_tags : option (list string)
}.

(* ------------------------------------------------------------------ *)
(** ** Callbacks, events and the world *)

Inductive Completion := Normal | Throws.

(** A function value: its identity [fn] (what [Set.add] and [Set.delete]
    compare) and what a call does when handed the object it is called with.
    A callback called through [call] observes: it does not write to the
    object it is handed.  What subscribers do to the set of subscribers
    while a notification pass runs is the matter of [forEachLive] below. *)
Record Callback (A : Type) := {
  fn : nat;
  body : A -> Completion
}.
Arguments fn {A} _.
Arguments body {A} _ _.

Definition Subscriber := Callback XRayExecution.

Inductive Event :=
| Notified (f : nat) (execution : ref)       (* a store subscriber was called *)
| StepStarted (f : nat) (step : ref)         (* onStepStart *)
| StepCompleted (f : nat) (step : ref)       (* onStepComplete *)
| ExecutionCompleted (f : nat) (execution : ref).

Record World := {
  clock : nat -> Z;            (* the n-th reading Date.now() will return *)
  ticks : nat;                 (* readings taken so far *)
  entropy : nat -> string;     (* Math.random().toString(36).substr(2, 9) *)
  draws : nat;
  execObjs : ref -> XRayExecution;
  nextExec : ref;
  stepObjs : ref -> XRayStep;
  nextStep : ref;
  arrays : ref -> list ref;
  nextArray : ref;
  executions : list (string * ref);   (* xrayStore.executions, insertion order *)
  subscribers : list Subscriber;      (* xrayStore.subscribers, insertion order *)
  calls : list Event                  (* callback invocations, oldest first *)
}.

Definition update {A} (m : ref -> A) (r : ref) (a : A) : ref -> A :=
  fun r' => if Nat.eqb r' r then a else m r'.

Definition with_ticks (n : nat) (w : World) : World :=
  {| clock := clock w; ticks := n; entropy := entropy w; draws := draws w;
     execObjs := execObjs w; nextExec := nextExec w;
     stepObjs := stepObjs w; nextStep := nextStep w;
     arrays := arrays w; nextArray := nextArray w;
     executions := executions w; subscribers := subscribers w;
     calls := calls w |}.

Definition with_draws (n : nat) (w : World) : World :=
  {| clock := clock w; ticks := ticks w; entropy := entropy w; draws := n;
     execObjs := execObjs w; nextExec := nextExec w;
     stepObjs := stepObjs w; nextStep := nextStep w;
     arrays := arrays w; nextArray := nextArray w;
     executions := executions w; subscribers := subscribers w;
     calls := calls w |}.

Definition with_execObjs (m : ref -> XRayExecution) (n : ref) (w : World) : World :=
  {| clock := clock w; ticks := ticks w; entropy := entropy w; draws := draws w;
     execObjs := m; nextExec := n;
     stepObjs := stepObjs w; nextStep := nextStep w;
     arrays := arrays w; nextArray := nextArray w;
     executions := executions w; subscribers := subscribers w;
     calls := calls w |}.

Definition with_stepObjs (m : ref -> XRayStep) (n : ref) (w : World) : World :=
  {| clock := clock w; ticks := ticks w; entropy := entropy w; draws := draws w;
     execObjs := execObjs w; nextExec := nextExec w;
     stepObjs := m; nextStep := n;
     arrays := arrays w; nextArray := nextArray w;
     executions := executions w; subscribers := subscribers w;
     calls := calls w |}.

Definition with_arrays (m : ref -> list ref) (n : ref) (w : World) : World :=
  {| clock := clock w; ticks := ticks w; entropy := entropy w; draws := draws w;
     execObjs := execObjs w; nextExec := nextExec w;
     stepObjs := stepObjs w; nextStep := nextStep w;
     arrays := m; nextArray := n;
     executions := executions w; subscribers := subscribers w;
     calls := calls w |}.

Definition with_executions (m : list (string * ref)) (w : World) : World :=
  {| clock := clock w; ticks := ticks w; entropy := entropy w; draws := draws w;
     execObjs := execObjs w; nextExec := nextExec w;
     stepObjs := stepObjs w; nextStep := nextStep w;
     arrays := arrays w; nextArray := nextArray w;
     executions := m; subscribers := subscribers w;
     calls := calls w |}.

Definition with_subscribers (s : list Subscriber) (w : World) : World :=
  {| clock := clock w; ticks := ticks w; entropy := entropy w; draws := draws w;
     execObjs := execObjs w; nextExec := nextExec w;
     stepObjs := stepObjs w; nextStep := nextStep w;
     arrays := arrays w; nextArray := nextArray w;
     executions := executions w; subscribers := s;
     calls := calls w |}.

Definition with_calls (c : list Event) (w : World) : World :=
  {| clock := clock w; ticks := ticks w; entropy := entropy w; draws := draws w;
     execObjs := execObjs w; nextExec := nextExec w;
     stepObjs := stepObjs w; nextStep := nextStep w;
     arrays := arrays w; nextArray := nextArray w;
     executions := executions w; subscribers := subscribers w;
     calls := c |}.

(* ------------------------------------------------------------------ *)
(** ** Effects: state with exceptions *)

Inductive Result (A : Type) :=
| Ok (a : A)
| Exn.
Arguments Ok {A} _.
Arguments Exn {A}.

(** A computation returns a value or throws, and in both cases leaves a
    world behind. *)
Definition Eff (A : Type) := World -> Result A * World.

Definition ret {A} (a : A) : Eff A := fun w => (Ok a, w).

Definition bind {A B} (m : Eff A) (k : A -> Eff B) : Eff B :=
  fun w => match m w with
           | (Ok a, w') => k a w'
           | (Exn, w') => (Exn, w')
           end.

Notation "x <- m ;; k" := (bind m (fun x => k))
  (at level 61, m at next level, right associativity).
Notation "m ;; k" := (bind m (fun _ => k))
  (at level 61, right associativity).

Definition read {A} (f : World -> A) : Eff A := fun w => (Ok (f w), w).
Definition write (f : World -> World) : Eff unit := fun w => (Ok tt, f w).
Definition when (b : bool) (m : Eff unit) : Eff unit := if b then m else ret tt.

(** The world a computation leaves and the value it returns. *)
Definition after {A} (m : Eff A) (w : World) : World := snd (m w).
Definition result {A} (m : Eff A) (w : World) : Result A := fst (m w).

(** [Date.now()] *)
Definition now : Eff Z :=
  fun w => (Ok (clock w (ticks w)), with_ticks (S (ticks w)) w).

(** [Math.random().toString(36).substr(2, 9)] *)
Definition random : Eff string :=
  fun w => (Ok (entropy w (draws w)), with_draws (S (draws w)) w).

Definition decimal (n : Z) : string := NilZero.string_of_int (Z.to_int n).

(** [generateId]: [`${Date.now()}-${Math.random().toString(36).substr(2, 9)}`] *)
Definition generateId : Eff string :=
  t <- now ;;
  r <- random ;;
  ret (String.append (decimal t) (String.append "-" r)).

Definition newExecution (e : XRayExecution) : Eff ref :=
  fun w => (Ok (nextExec w),
            with_execObjs (update (execObjs w) (nextExec w) e) (S (nextExec w)) w).

Definition newStep (s : XRayStep) : Eff ref :=
  fun w => (Ok (nextStep w),
            with_stepObjs (update (stepObjs w) (nextStep w) s) (S (nextStep w)) w).

Definition newArray (l : list ref) : Eff ref :=
  fun w => (Ok (nextArray w),
            with_arrays (update (arrays w) (nextArray w) l) (S (nextArray w)) w).

Definition setExecution (r : ref) (f : XRayExecution -> XRayExecution) : Eff unit :=
  write (fun w => with_execObjs (update (execObjs w) r (f (execObjs w r))) (nextExec w) w).

Definition setStep (r : ref) (f : XRayStep -> XRayStep) : Eff unit :=
  write (fun w => with_stepObjs (update (stepObjs w) r (f (stepObjs w r))) (nextStep w) w).

(** [array.push(x)] *)
Definition push (a : ref) (x : ref) : Eff unit :=
  write (fun w => with_arrays (update (arrays w) a (arrays w a ++ [x])) (nextArray w) w).

(** Calling a callback on the object [arg], whose current contents are [v]. *)
Definition call {A} (ev : nat -> ref -> Event) (cb : Callback A) (arg : ref) (v : A)
  : Eff unit :=
  fun w => let w' := with_calls (calls w ++ [ev (fn cb) arg]) w in
           match body cb v with
           | Normal => (Ok tt, w')
           | Throws => (Exn, w')
           end.

(** [cb?.(arg)] *)
Definition callOpt {A} (ev : nat -> ref -> Event) (cb : option (Callback A))
  (arg : ref) (v : A) : Eff unit :=
  match cb with
  | Some f => call ev f arg v
  | None => ret tt
  end.

(* ------------------------------------------------------------------ *)
(** ** The trace store ([store.ts]) *)

Inductive OrderBy := byStartTime | byEndTime | byName.
Inductive OrderDirection := asc | desc.

Record QueryOptions := {
  limit : option Z;
  offset : option Z;
  status : option StepStatus;
  tags : option (list string);
  fromTime : option Z;
  toTime : option Z;
  orderBy : option OrderBy;
  orderDirection : option OrderDirection
}.

(** [findAll()] is [findAll({})]. *)
Definition noOptions : QueryOptions :=
  {| limit := None; offset := None; status := None; tags := None;
     fromTime := None; toTime := None; orderBy := None; orderDirection := None |}.

Definition with_limit (l : option Z) (o : QueryOptions) : QueryOptions :=
  {| limit := l; offset := offset o; status := status o; tags := tags o;
     fromTime := fromTime o; toTime := toTime o;
     orderBy := orderBy o; orderDirection := orderDirection o |}.

Definition with_offset (k : option Z) (o : QueryOptions) : QueryOptions :=
  {| limit := limit o; offset := k; status := status o; tags := tags o;
     fromTime := fromTime o; toTime := toTime o;
     orderBy := orderBy o; orderDirection := orderDirection o |}.

Definition with_tags (ts : option (list string)) (o : QueryOptions) : QueryOptions :=
  {| limit := limit o; offset := offset o; status := status o; tags := ts;
     fromTime := fromTime o; toTime := toTime o;
     orderBy := orderBy o; orderDirection := orderDirection o |}.

(** [x || d] on an optional number: [undefined] and [0] are both falsy. *)
Definition orElse (x : option Z) (d : Z) : Z :=
  match x with
  | Some v => if v =? 0 then d else v
  | None => d
  end.

(** [Map.prototype.set]: an existing key keeps its place, a new one goes last. *)
Fixpoint mapSet (k : string) (v : ref) (m : list (string * ref)) : list (string * ref) :=
  match m with
  | [] => [(k, v)]
  | (k', v') :: m' => if String.eqb k' k then (k, v) :: m' else (k', v') :: mapSet k v m'
  end.

Fixpoint mapGet (k : string) (m : list (string * ref)) : option ref :=
  match m with
  | [] => None
  | (k', v') :: m' => if String.eqb k' k then Some v' else mapGet k m'
  end.

Fixpoint mapDelete (k : string) (m : list (string * ref)) : list (string * ref) :=
  match m with
  | [] => []
  | (k', v') :: m' => if String.eqb k' k then m' else (k', v') :: mapDelete k m'
  end.

Definition mapHas (k : string) (m : list (string * ref)) : bool :=
  match mapGet k m with Some _ => true | None => false end.

(** [Set.prototype.has / add / delete] on function values. *)
Definition setHas (cb : Subscriber) (s : list Subscriber) : bool :=
  existsb (fun c => Nat.eqb (fn c) (fn cb)) s.

Definition setAdd (cb : Subscriber) (s : list Subscriber) : list Subscriber :=
  if setHas cb s then s else s ++ [cb].

Definition setDelete (cb : Subscriber) (s : list Subscriber) : list Subscriber :=
  List.filter (fun c => negb (Nat.eqb (fn c) (fn cb))) s.

(** A call of the store made by a subscriber while it runs: [subscribe(cb)],
    or the action an earlier [subscribe(cb)] returned. *)
Inductive StoreCall :=
| CallSubscribe (cb : Subscriber)
| CallUnsubscribe (cb : Subscriber).

(** The entries of a [Set] while it is being iterated: [Set.prototype.delete]
    leaves a hole where the entry was, [Set.prototype.add] appends unless
    the value is among the entries. *)
Definition entryHas (cb : Subscriber) (entries : list (option Subscriber)) : bool :=
  existsb (fun e => match e with
                    | Some c => Nat.eqb (fn c) (fn cb)
                    | None => false
                    end) entries.

Definition entryAdd (cb : Subscriber) (entries : list (option Subscriber))
  : list (option Subscriber) :=
  if entryHas cb entries then entries else entries ++ [Some cb].

Definition entryDelete (cb : Subscriber) (entries : list (option Subscriber))
  : list (option Subscriber) :=
  map (fun e => match e with
                | Some c => if Nat.eqb (fn c) (fn cb) then None else Some c
                | None => None
                end) entries.

Definition perform (entries : list (option Subscriber)) (c : StoreCall)
  : list (option Subscriber) :=
  match c with
  | CallSubscribe cb => entryAdd cb entries
  | CallUnsubscribe cb => entryDelete cb entries
  end.

(** The values of the set, holes left out. *)
Fixpoint valuesOf (entries : list (option Subscriber)) : list Subscriber :=
  match entries with
  | [] => []
  | Some c :: rest => c :: valuesOf rest
  | None :: rest => valuesOf rest
  end.

(** [Array.prototype.slice(start, end)] on integer arguments. *)
Definition slice {A} (l : list A) (start stop : Z) : list A :=
  let len := Z.of_nat (List.length l) in
  let k := if start <? 0 then Z.max (len + start) 0 else Z.min start len in
  let final := if stop <? 0 then Z.max (len + stop) 0 else Z.min stop len in
  firstn (Z.to_nat (final - k)) (skipn (Z.to_nat k) l).

(** [Array.prototype.sort(compare)].  The sort is stable, and for a
    consistent comparator every stable sort returns this sequence: an element
    is placed before the first later one it does not exceed. *)
Fixpoint insertSorted {A} (compare : A -> A -> Z) (x : A) (l : list A) : list A :=
  match l with
  | [] => [x]
  | y :: l' => if compare x y <=? 0 then x :: l else y :: insertSorted compare x l'
  end.

Definition sort {A} (compare : A -> A -> Z) (l : list A) : list A :=
  fold_right (insertSorted compare) [] l.

(** [Record<StepStatus, number>] *)
Record StatusCounts := {
  n_pending : nat;
  n_running : nat;
  n_completed : nat;
  n_failed : nat
}.

Definition noCounts : StatusCounts :=
  {| n_pending := 0; n_running := 0; n_completed := 0; n_failed := 0 |}.

(** [counts[status]++] *)
Definition increment (counts : StatusCounts) (s : StepStatus) : StatusCounts :=
  match s with
  | pending =>
      {| n_pending := S (n_pending counts); n_running := n_running counts;
         n_completed := n_completed counts; n_failed := n_failed counts |}
  | running =>
      {| n_pending := n_pending counts; n_running := S (n_running counts);
         n_completed := n_completed counts; n_failed := n_failed counts |}
  | completed =>
      {| n_pending := n_pending counts; n_running := n_running counts;
         n_completed := S (n_completed counts); n_failed := n_failed counts |}
  | failed =>
      {| n_pending := n_pending counts; n_running := n_running counts;
         n_completed := n_completed counts; n_failed := S (n_failed counts) |}
  end.

(** [counts[status]] *)
Definition countOf (counts : StatusCounts) (s : StepStatus) : nat :=
  match s with
  | pending => n_pending counts
  | running => n_running counts
  | completed => n_completed counts
  | failed => n_failed counts
  end.

(** [array.includes(x)] on strings. *)
Definition includes (l : list string) (x : string) : bool :=
  existsb (String.eqb x) l.

Module InMemoryXRayStore.
Section Store.

(** [String.prototype.localeCompare], supplied by the platform. *)
Variable localeCompare : string -> string -> Z.

(** [this.subscribers.forEach(callback => callback(execution))] *)
Fixpoint forEach (subs : list Subscriber) (execution : ref) : Eff unit :=
  match subs with
  | [] => ret tt
  | callback :: rest =>
      e <- read (fun w => execObjs w execution) ;;
      call Notified callback execution e ;;
      forEach rest execution
  end.

Definition save (execution : ref) : Eff unit :=
  e <- read (fun w => execObjs w execution) ;;
  write (fun w => with_executions (mapSet (exec_id e) execution (executions w)) w) ;;
  subs <- read subscribers ;;
  forEach subs execution.

Definition get (id : string) : Eff (option ref) :=
  read (fun w => mapGet id (executions w)).

Definition delete (id : string) : Eff bool :=
  present <- read (fun w => mapHas id (executions w)) ;;
  write (fun w => with_executions (mapDelete id (executions w)) w) ;;
  ret present.

Definition clear : Eff unit :=
  write (with_executions []).

(** The predicates of [findAll], on the object an entry refers to. *)
Definition statusMatches (o : QueryOptions) (e : XRayExecution) : bool :=
  match status o with
  | Some s => StepStatus_eqb (exec_status e) s
  | None => true
  end.

Definition hasAnyTag (ts : list string) (e : XRayExecution) : bool :=
  existsb (fun tag => match exec_tags e with
                      | Some own => includes own tag
                      | None => false
                      end) ts.

Definition tagsMatch (o : QueryOptions) (e : XRayExecution) : bool :=
  match tags o with
  | Some (t :: ts) => hasAnyTag (t :: ts) e
  | _ => true
  end.

Definition fromTimeMatches (o : QueryOptions) (e : XRayExecution) : bool :=
  match fromTime o with
  | Some t => exec_startTime e >=? t
  | None => true
  end.

Definition toTimeMatches (o : QueryOptions) (e : XRayExecution) : bool :=
  match toTime o with
  | Some t => exec_startTime e <=? t
  | None => true
  end.

(** The comparator handed to [results.sort]. *)
Definition compareBy (o : QueryOptions) (a b : XRayExecution) : Z :=
  let direction := match orderDirection o with Some d => d | None => desc end in
  match (match orderBy o with Some k => k | None => byStartTime end) with
  | byName =>
      match direction with
      | asc => localeCompare (exec_name a) (exec_name b)
      | desc => localeCompare (exec_name b) (exec_name a)
      end
  | byEndTime =>
      let aVal := orElse (exec_endTime a) 0 in
      let bVal := orElse (exec_endTime b) 0 in
      match direction with asc => aVal - bVal | desc => bVal - aVal end
  | byStartTime =>
      let aVal := exec_startTime a in
      let bVal := exec_startTime b in
      match direction with asc => aVal - bVal | desc => bVal - aVal end
  end.

(** [findAll] up to and including the sort: the filters, one after the
    other, then the sort. *)
Definition filtered (w : World) (o : QueryOptions) : list ref :=
  let results := map snd (executions w) in
  let results := List.filter (fun r => statusMatches o (execObjs w r)) results in
  let results := List.filter (fun r => tagsMatch o (execObjs w r)) results in
  let results := List.filter (fun r => fromTimeMatches o (execObjs w r)) results in
  List.filter (fun r => toTimeMatches o (execObjs w r)) results.

Definition sorted (w : World) (o : QueryOptions) : list ref :=
  sort (fun a b => compareBy o (execObjs w a) (execObjs w b)) (filtered w o).

Definition findAllIn (w : World) (o : QueryOptions) : list ref :=
  let results := sorted w o in
  let offset := orElse (offset o) 0 in
  let limit := orElse (limit o) (Z.of_nat (List.length results)) in
  slice results offset (offset + limit).

Definition findAll (o : QueryOptions) : Eff (list ref) :=
  read (fun w => findAllIn w o).

Definition findByStatus (s : StepStatus) : Eff (list ref) :=
  findAll (Build_QueryOptions None None (Some s) None None None None None).

Definition findByTags (ts : list string) : Eff (list ref) :=
  findAll (Build_QueryOptions None None None (Some ts) None None None None).

Definition findByTimeRange (from to : Z) : Eff (list ref) :=
  findAll (Build_QueryOptions None None None None (Some from) (Some to) None None).

Definition count : Eff nat :=
  read (fun w => List.length (executions w)).

(** [countByStatus]: the object [{ pending: 0, running: 0, completed: 0,
    failed: 0 }] and one [counts[execution.status]++] per stored execution. *)
Definition countByStatus : Eff StatusCounts :=
  read (fun w =>
    fold_left (fun counts r => increment counts (exec_status (execObjs w r)))
              (map snd (executions w)) noCounts).

(** [subscribe] returns the closure [() => this.subscribers.delete(callback)];
    [unsubscribe callback] is a call of that closure. *)
Definition unsubscribe (callback : Subscriber) : Eff bool :=
  present <- read (fun w => setHas callback (subscribers w)) ;;
  write (fun w => with_subscribers (setDelete callback (subscribers w)) w) ;;
  ret present.

Definition subscribe (callback : Subscriber) : Eff (Eff bool) :=
  write (fun w => with_subscribers (setAdd callback (subscribers w)) w) ;;
  ret (unsubscribe callback).

Definition getAll : Eff (list ref) :=
  read (fun w => map snd (executions w)).

(** *** Subscribers that call the store

    A subscriber may hold the store, or an action [subscribe] returned,
    and call [subscribe] or that action while a notification pass runs.
    [storeCalls f e] are the calls of this kind that the function [f]
    makes, in order, when it runs on the execution [e], before it
    returns or throws. *)
Variable storeCalls : nat -> XRayExecution -> list StoreCall.

(** [Set.prototype.forEach]: the pass goes through the entries by index
    and looks at the set as it then is, so an entry deleted before the
    pass reaches it is skipped and an entry added during the pass is
    visited.  [None] when the fuel does not last. *)
Fixpoint forEachLive (fuel index : nat) (entries : list (option Subscriber))
  (execution : ref) (w : World) : option (Result unit * World) :=
  match fuel with
  | O => None
  | S fuel' =>
      match nth_error entries index with
      | None => Some (Ok tt, with_subscribers (valuesOf entries) w)
      | Some None => forEachLive fuel' (S index) entries execution w
      | Some (Some callback) =>
          let e := execObjs w execution in
          let w' := with_calls (calls w ++ [Notified (fn callback) execution]) w in
          let entries' := fold_left perform (storeCalls (fn callback) e) entries in
          match body callback e with
          | Normal => forEachLive fuel' (S index) entries' execution w'
          | Throws => Some (Exn, with_subscribers (valuesOf entries') w')
          end
      end
  end.

(** [save] with such subscribers. *)
Definition saveLive (fuel : nat) (execution : ref) (w : World)
  : option (Result unit * World) :=
  let w1 := with_executions
              (mapSet (exec_id (execObjs w execution)) execution (executions w)) w in
  forEachLive fuel 0 (map Some (subscribers w1)) execution w1.

End Store.
End InMemoryXRayStore.

(** The singleton [xrayStore] is the store of the world. *)
Module xrayStore := InMemoryXRayStore.

(* ------------------------------------------------------------------ *)
(** ** The execution builder ([sdk.ts]) *)

Record XRayConfig := {
  executionName : option string;
  cfg_description : option string;
  cfg_context : option (list (string * Value));
  cfg_tags : option (list string);
  cfg_autoSave : option bool;
  onStepStart : option (Callback XRayStep);
  onStepComplete : option (Callback XRayStep);
  onExecutionComplete : option (Callback XRayExecution)
}.

(** [createXRay()] is [createXRay({})]. *)
Definition noConfig : XRayConfig :=
  {| executionName := None; cfg_description := None; cfg_context := None;
     cfg_tags := None; cfg_autoSave := None; onStepStart := None;
     onStepComplete := None; onExecutionComplete := None |}.

Record XRayInstance := {
  execution : ref;
  config : XRayConfig;
  autoSave : bool
}.

(** The object [step] returns: its methods close over [this], the object
    [stepData] and the constant [startTime]. *)
Record StepBuilder := {
  this : XRayInstance;
  stepData : ref;
  startTime : Z
}.

(** [{ ...metrics, duration }] *)
Definition mergeDuration (metrics : option StepMetrics) (d : Z) : StepMetrics :=
  match metrics with
  | Some m =>
      {| inputCount := inputCount m; outputCount := outputCount m;
         passedCount := passedCount m; failedCount := failedCount m;
         duration := Some d |}
  | None =>
      {| inputCount := None; outputCount := None; passedCount := None;
         failedCount := None; duration := Some d |}
  end.




Module Sdk.

(** [new XRayInstance(config)] *)
Definition new (config : XRayConfig) : Eff XRayInstance :=
  let autoSave := match cfg_autoSave config with Some false => false | _ => true end in
  id <- generateId ;;
  startTime <- now ;;
  steps <- newArray [] ;;
  execution <- newExecution
    {| exec_id := id;
       exec_name := match executionName config with
                    | Some EmptyString | None => "Unnamed Execution"%string
                    | Some n => n
                    end;
       exec_description := cfg_description config;
       exec_startTime := startTime;
       exec_endTime := None;
       exec_status := running;
       exec_steps := steps;
       exec_context := cfg_context config;
       exec_finalOutput := None;
       exec_tags := cfg_tags config |} ;;
  when autoSave (xrayStore.save execution) ;;
  ret {| execution := execution; config := config; autoSave := autoSave |}.

Definition createXRay (config : XRayConfig) : Eff XRayInstance := new config.

(** [{ ...options, executionName: name }] *)
Definition createExecution (name : string) (options : XRayConfig) : Eff XRayInstance :=
  new {| executionName := Some name;
         cfg_description := cfg_description options;
         cfg_context := cfg_context options;
         cfg_tags := cfg_tags options;
         cfg_autoSave := cfg_autoSave options;
         onStepStart := onStepStart options;
         onStepComplete := onStepComplete options;
         onExecutionComplete := onExecutionComplete options |}.

Definition step (this : XRayInstance) (name : string) (type : option StepType)
  : Eff StepBuilder :=
  stepId <- generateId ;;
  startTime <- now ;;
  stepData <- newStep
    {| step_id := stepId;
       step_name := name;
       step_type := match type with Some t => t | None => custom end;
       step_status := running;
       step_startTime := startTime;
       step_endTime := None; step_input := None; step_output := None;
       step_reasoning := None; step_metrics := None; step_evaluations := None;
       step_filtersApplied := None; step_metadata := None; step_error := None |} ;;
  d <- read (fun w => stepObjs w stepData) ;;
  callOpt StepStarted (onStepStart (config this)) stepData d ;;
  ret {| this := this; stepData := stepData; startTime := startTime |}.

Definition withInput (builder : StepBuilder) (input : Value) : Eff StepBuilder :=
  setStep (stepData builder) (fun s =>
    {| step_id := step_id s; step_name := step_name s; step_type := step_type s;
       step_status := step_status s; step_startTime := step_startTime s;
       step_endTime := step_endTime s; step_input := Some input;
       step_output := step_output s; step_reasoning := step_reasoning s;
       step_metrics := step_metrics s; step_evaluations := step_evaluations s;
       step_filtersApplied := step_filtersApplied s;
       step_metadata := step_metadata s; step_error := step_error s |}) ;;
  ret builder.

Definition withFilters (builder : StepBuilder) (filters : list (string * FilterSpec))
  : Eff StepBuilder :=
  setStep (stepData builder) (fun s =>
    {| step_id := step_id s; step_name := step_name s; step_type := step_type s;
       step_status := step_status s; step_startTime := step_startTime s;
       step_endTime := step_endTime s; step_input := step_input s;
       step_output := step_output s; step_reasoning := step_reasoning s;
       step_metrics := step_metrics s; step_evaluations := step_evaluations s;
       step_filtersApplied := Some filters;
       step_metadata := step_metadata s; step_error := step_error s |}) ;;
  ret builder.

Definition withEvaluations (builder : StepBuilder)
  (evaluations : list CandidateEvaluation) : Eff StepBuilder :=
  setStep (stepData builder) (fun s =>
    {| step_id := step_id s; step_name := step_name s; step_type := step_type s;
       step_status := step_status s; step_startTime := step_startTime s;
       step_endTime := step_endTime s; step_input := step_input s;
       step_output := step_output s; step_reasoning := step_reasoning s;
       step_metrics := step_metrics s; step_evaluations := Some evaluations;
       step_filtersApplied := step_filtersApplied s;
       step_metadata := step_metadata s; step_error := step_error s |}) ;;
  ret builder.

Definition withReasoning (builder : StepBuilder) (reasoning : string) : Eff StepBuilder :=
  setStep (stepData builder) (fun s =>
    {| step_id := step_id s; step_name := step_name s; step_type := step_type s;
       step_status := step_status s; step_startTime := step_startTime s;
       step_endTime := step_endTime s; step_input := step_input s;
       step_output := step_output s; step_reasoning := Some reasoning;
       step_metrics := step_metrics s; step_evaluations := step_evaluations s;
       step_filtersApplied := step_filtersApplied s;
       step_metadata := step_metadata s; step_error := step_error s |}) ;;
  ret builder.

Definition withMetadata (builder : StepBuilder) (metadata : list (string * Value))
  : Eff StepBuilder :=
  setStep (stepData builder) (fun s =>
    {| step_id := step_id s; step_name := step_name s; step_type := step_type s;
       step_status := step_status s; step_startTime := step_startTime s;
       step_endTime := step_endTime s; step_input := step_input s;
       step_output := step_output s; step_reasoning := step_reasoning s;
       step_metrics := step_metrics s; step_evaluations := step_evaluations s;
       step_filtersApplied := step_filtersApplied s;
       step_metadata := Some metadata; step_error := step_error s |}) ;;
  ret builder.

(** [complete]: the object literal is evaluated field by field, so the
    reading for [endTime] is taken before the reading for [duration]. *)
Definition complete (builder : StepBuilder) (output : Value)
  (metrics : option StepMetrics) : Eff ref :=
  let self := this builder in
  d <- read (fun w => stepObjs w (stepData builder)) ;;
  endTime <- now ;;
  t <- now ;;
  completedStep <- newStep
    {| step_id := step_id d; step_name := step_name d; step_type := step_type d;
       step_status := completed;
       step_startTime := step_startTime d;
       step_endTime := Some endTime;
       step_input := step_input d;
       step_output := Some output;
       step_reasoning := step_reasoning d;
       step_metrics := Some (mergeDuration metrics (t - startTime builder));
       step_evaluations := step_evaluations d;
       step_filtersApplied := step_filtersApplied d;
       step_metadata := step_metadata d; step_error := step_error d |} ;;
  e <- read (fun w => execObjs w (execution self)) ;;
  push (exec_steps e) completedStep ;;
  s <- read (fun w => stepObjs w completedStep) ;;
  callOpt StepCompleted (onStepComplete (config self)) completedStep s ;;
  when (autoSave self) (xrayStore.save (execution self)) ;;
  ret completedStep.

Definition fail (builder : StepBuilder) (error : string) : Eff ref :=
  let self := this builder in
  d <- read (fun w => stepObjs w (stepData builder)) ;;
  endTime <- now ;;
  t <- now ;;
  failedStep <- newStep
    {| step_id := step_id d; step_name := step_name d; step_type := step_type d;
       step_status := failed;
       step_startTime := step_startTime d;
       step_endTime := Some endTime;
       step_input := step_input d;
       step_output := step_output d;
       step_reasoning := step_reasoning d;
       step_metrics := Some (mergeDuration None (t - startTime builder));
       step_evaluations := step_evaluations d;
       step_filtersApplied := step_filtersApplied d;
       step_metadata := step_metadata d; step_error := Some error |} ;;
  e <- read (fun w => execObjs w (execution self)) ;;
  push (exec_steps e) failedStep ;;
  s <- read (fun w => stepObjs w failedStep) ;;
  callOpt StepCompleted (onStepComplete (config self)) failedStep s ;;
  when (autoSave self) (xrayStore.save (execution self)) ;;
  ret failedStep.


(** [this.execution.steps.some(s => s.status === 'failed')] *)
Definition hasFailedStepIn (w : World) (execution : ref) : bool :=
  existsb (fun s => StepStatus_eqb (step_status (stepObjs w s)) failed)
          (arrays w (exec_steps (execObjs w execution))).

Definition finalize (this : XRayInstance) (finalOutput : option Value) : Eff ref :=
  hasFailedStep <- read (fun w => hasFailedStepIn w (execution this)) ;;
  endTime <- now ;;
  setExecution (execution this) (fun e =>
    {| exec_id := exec_id e; exec_name := exec_name e;
       exec_description := exec_description e; exec_startTime := exec_startTime e;
       exec_endTime := Some endTime;
       exec_status := if hasFailedStep then failed else completed;
       exec_steps := exec_steps e; exec_context := exec_context e;
       exec_finalOutput := finalOutput; exec_tags := exec_tags e |}) ;;
  e <- read (fun w => execObjs w (execution this)) ;;
  callOpt ExecutionCompleted (onExecutionComplete (config this)) (execution this) e ;;
  when (autoSave this) (xrayStore.save (execution this)) ;;
  ret (execution this).

Definition finish (this : XRayInstance) (finalOutput : option Value) : Eff ref :=
  finalize this finalOutput.

(** [{ ...this.execution }]: a new object with the same field values. *)
Definition getExecution (this : XRayInstance) : Eff ref :=
  e <- read (fun w => execObjs w (execution this)) ;;
  newExecution e.

(** [[...this.execution.steps]] *)
Definition getSteps (this : XRayInstance) : Eff ref :=
  e <- read (fun w => execObjs w (execution this)) ;;
  l <- read (fun w => arrays w (exec_steps e)) ;;
  newArray l.

Definition getId (this : XRayInstance) : Eff string :=
  read (fun w => exec_id (execObjs w (execution this))).

End Sdk.

(** What any holder of a reference to an execution can do with it:
    [e.status = s] and [e.steps.push(x)]. *)
Definition assignStatus (e : ref) (s : StepStatus) : Eff unit :=
  setExecution e (fun o =>
    {| exec_id := exec_id o; exec_name := exec_name o;
       exec_description := exec_description o; exec_startTime := exec_startTime o;
       exec_endTime := exec_endTime o; exec_status := s;
       exec_steps := exec_steps o; exec_context := exec_context o;
       exec_finalOutput := exec_finalOutput o; exec_tags := exec_tags o |}).

Definition pushStep (e : ref) (x : ref) : Eff unit :=
  o <- read (fun w => execObjs w e) ;;
  push (exec_steps o) x.

(** The chainable setters of the sub-builder, as data. *)
Inductive Setter :=
| WithInput (input : Value)
| WithFilters (filters : list (string * FilterSpec))
| WithEvaluations (evaluations : list CandidateEvaluation)
| WithReasoning (reasoning : string)
| WithMetadata (metadata : list (string * Value)).

Definition applySetter (builder : StepBuilder) (s : Setter) : Eff StepBuilder :=
  match s with
  | WithInput v => Sdk.withInput builder v
  | WithFilters f => Sdk.withFilters builder f
  | WithEvaluations e => Sdk.withEvaluations builder e
  | WithReasoning r => Sdk.withReasoning builder r
  | WithMetadata m => Sdk.withMetadata builder m
  end.

(** [builder.s1(..).s2(..)...] *)
Fixpoint chain (builder : StepBuilder) (ss : list Setter) : Eff StepBuilder :=
  match ss with
  | [] => ret builder
  | s :: rest => b <- applySetter builder s ;; chain b rest
  end.

(** The two terminal calls of the sub-builder. *)
Inductive Terminal :=
| Complete (output : Value) (metrics : option StepMetrics)
| Fail (error : string).

Definition terminal (builder : StepBuilder) (t : Terminal) : Eff ref :=
  match t with
  | Complete output metrics => Sdk.complete builder output metrics
  | Fail error => Sdk.fail builder error
  end.

Definition terminalStatus (t : Terminal) : StepStatus :=
  match t with
  | Complete _ _ => completed
  | Fail _ => failed
  end.

(** The steps of an execution, as a reader sees them. *)
Definition stepsOf (w : World) (e : ref) : list ref :=
  arrays w (exec_steps (execObjs w e)).

(* ------------------------------------------------------------------ *)
(** ** Notification *)

(** The subscribers a notification pass reaches: all of them up to and
    including the first one that throws. *)
Fixpoint reached (subs : list Subscriber) (e : XRayExecution) : list Subscriber :=
  match subs with
  | [] => []
  | cb :: rest =>
      cb :: match body cb e with
            | Normal => reached rest e
            | Throws => []
            end
  end.

Definition returns {A} (a : A) (cb : Callback A) : bool :=
  match body cb a with Normal => true | Throws => false end.

Definition notifications (subs : list Subscriber) (r : ref) : list Event :=
  map (fun cb => Notified (fn cb) r) subs.

(** [untouched r w w']: between [w] and [w'] nothing changed but staged
    fields of the step object [r]; its id, status and times are as before. *)
Definition untouched (r : ref) (w w' : World) : Prop :=
  clock w' = clock w /\ ticks w' = ticks w /\
  entropy w' = entropy w /\ draws w' = draws w /\
  execObjs w' = execObjs w /\ nextExec w' = nextExec w /\
  nextStep w' = nextStep w /\
  arrays w' = arrays w /\ nextArray w' = nextArray w /\
  executions w' = executions w /\ subscribers w' = subscribers w /\
  calls w' = calls w /\
  step_id (stepObjs w' r) = step_id (stepObjs w r) /\
  step_status (stepObjs w' r) = step_status (stepObjs w r) /\
  step_startTime (stepObjs w' r) = step_startTime (stepObjs w r) /\
  step_endTime (stepObjs w' r) = step_endTime (stepObjs w r) /\
  (forall r', r' <> r -> stepObjs w' r' = stepObjs w r').

(** A callback that returns whatever it is called with. *)
Definition neverThrows {A} (cb : Callback A) : Prop :=
  forall a, body cb a = Normal.

(** No hook of the instance and no subscriber of the store throws. *)
Definition quiet (i : XRayInstance) (w : World) : Prop :=
  (forall cb, onStepStart (config i) = Some cb -> neverThrows cb) /\
  (forall cb, onStepComplete (config i) = Some cb -> neverThrows cb) /\
  (forall cb, onExecutionComplete (config i) = Some cb -> neverThrows cb) /\
  (forall cb, In cb (subscribers w) -> neverThrows cb).

(* ------------------------------------------------------------------ *)
(** ** Concrete scenarios *)

Definition blankStep : XRayStep :=
  {| step_id := ""; step_name := ""; step_type := custom; step_status := pending;
     step_startTime := 0; step_endTime := None; step_input := None;
     step_output := None; step_reasoning := None; step_metrics := None;
     step_evaluations := None; step_filtersApplied := None;
     step_metadata := None; step_error := None |}.

Definition blankExecution : XRayExecution :=
  {| exec_id := ""; exec_name := ""; exec_description := None;
     exec_startTime := 0; exec_endTime := None; exec_status := pending;
     exec_steps := 0%nat; exec_context := None; exec_finalOutput := None;
     exec_tags := None |}.

(** A process that has just started: nothing allocated, an empty store. *)
Definition freshWorld (clock : nat -> Z) : World :=
  {| clock := clock; ticks := 0%nat;
     entropy := fun n => match n with
                        | O => "k3j9x0q1z"
                        | S O => "p7m2w8c4e"
                        | _ => "a1b2c3d4e"
                        end%string;
     draws := 0%nat;
     execObjs := fun _ => blankExecution; nextExec := 0%nat;
     stepObjs := fun _ => blankStep; nextStep := 0%nat;
     arrays := fun _ => []; nextArray := 0%nat;
     executions := []; subscribers := []; calls := [] |}.

Definition steadyClock : nat -> Z := fun _ => 1000.

(** The clock passes a millisecond boundary between its fifth and its
    sixth reading. *)
Definition tickingClock : nat -> Z :=
  fun n => if (n <=? 4)%nat then 1000 else 1001.

(** [createXRay().step('Apply Filters', 'filter').withInput(12)
      .complete(8, { passedCount: 8, duration: 999 })] *)
Definition completeOnce : Eff ref :=
  xray <- Sdk.createXRay noConfig ;;
  b <- Sdk.step xray "Apply Filters" (Some filter) ;;
  b <- Sdk.withInput b (VNum 12) ;;
  Sdk.complete b (VNum 8)
    (Some {| inputCount := None; outputCount := None; passedCount := Some 8;
             failedCount := None; duration := Some 999 |}).

(** [const xray = createXRay(); xray.step('Search', 'search')] *)
Definition openOnly : Eff StepBuilder :=
  xray <- Sdk.createXRay noConfig ;;
  Sdk.step xray "Search" (Some search).


(** [const xray = createXRay(); xray.step('Search').fail('timeout')] *)
Definition failOnce : Eff XRayInstance :=
  xray <- Sdk.createXRay noConfig ;;
  b <- Sdk.step xray "Search" None ;;
  Sdk.fail b "timeout" ;;
  ret xray.

(** [const xray = createXRay(); const s = xray.step('Search').complete(1);
     const snapshot = xray.getExecution()] *)
Definition takeSnapshot : Eff (XRayInstance * ref * ref) :=
  xray <- Sdk.createXRay noConfig ;;
  b <- Sdk.step xray "Search" None ;;
  s <- Sdk.complete b (VNum 1) None ;;
  snapshot <- Sdk.getExecution xray ;;
  ret (xray, s, snapshot).

(** [const xray = createXRay(); const stored = xrayStore.get(xray.getId());
     stored.status = 'failed'] *)
Definition assignOnStored : Eff XRayInstance :=
  xray <- Sdk.createXRay noConfig ;;
  id <- Sdk.getId xray ;;
  stored <- xrayStore.get id ;;
  match stored with
  | Some e => assignStatus e failed
  | None => ret tt
  end ;;
  ret xray.

(** A subscriber that throws and one that returns. *)
Definition thrower : Subscriber := {| fn := 1; body := fun _ => Throws |}.
Definition listener : Subscriber := {| fn := 2; body := fun _ => Normal |}.



(** How often the function [f] was called as a store subscriber. *)
Definition timesNotified (f : nat) (evs : list Event) : nat :=
  List.length (List.filter (fun ev => match ev with
                                      | Notified g _ => Nat.eqb g f
                                      | _ => false
                                      end) evs).

(** How many registrations of the function [f] the store holds. *)
Definition registrations (f : nat) (subs : list Subscriber) : nat :=
  List.length (List.filter (fun c => Nat.eqb (fn c) f) subs).

(** A stand-in for [localeCompare] in the scenarios: comparison by code
    units. *)
Definition codeUnitCompare (a b : string) : Z :=
  match String.compare a b with
  | Lt => -1
  | Eq => 0
  | Gt => 1
  end.

(** [createXRay({ tags: ['c'] }); createXRay({ tags: ['a', 'c'] })] *)
Definition twoTagged : Eff unit :=
  Sdk.createXRay
    {| executionName := Some "first"%string; cfg_description := None;
       cfg_context := None; cfg_tags := Some ["c"%string]; cfg_autoSave := None;
       onStepStart := None; onStepComplete := None; onExecutionComplete := None |} ;;
  Sdk.createXRay
    {| executionName := Some "second"%string; cfg_description := None;
       cfg_context := None; cfg_tags := Some ["a"%string; "c"%string];
       cfg_autoSave := None;
       onStepStart := None; onStepComplete := None; onExecutionComplete := None |} ;;
  ret tt.

(** [findAll({ tags })] *)
Definition tagsOnly (ts : list string) : QueryOptions :=
  {| limit := None; offset := None; status := None; tags := Some ts;
     fromTime := None; toTime := None; orderBy := None; orderDirection := None |}.

(** The execution has one of the tags [ts]. *)
Definition intersects (e : XRayExecution) (ts : list string) : Prop :=
  exists tag own, In tag ts /\ exec_tags e = Some own /\ In tag own.

(** The options [o] without [limit] and [offset]. *)
Definition unpaginated (o : QueryOptions) : QueryOptions :=
  with_limit None (with_offset None o).

(** [findAll({ ...o, limit: L, offset: k * L })], the page number [k]. *)
Definition page (localeCompare : string -> string -> Z) (w : World)
  (o : QueryOptions) (L : Z) (k : nat) : list ref :=
  InMemoryXRayStore.findAllIn localeCompare w
    (with_limit (Some L) (with_offset (Some (Z.of_nat k * L)) o)).

(* ------------------------------------------------------------------ *)
(** ** Readers and presentation helpers *)



(** The key [findAll] sorts by when [orderBy] is not ['name']. *)
Definition sortKey (o : QueryOptions) (e : XRayExecution) : Z :=
  match orderBy o with
  | Some byEndTime => orElse (exec_endTime e) 0
  | _ => exec_startTime e
  end.

(** The order [findAll] asks for: descending unless [orderDirection] is
    ['asc']. *)
Definition inOrder (o : QueryOptions) (a b : Z) : Prop :=
  match orderDirection o with
  | Some asc => a <= b
  | _ => b <= a
  end.

(** The value each setter kind leaves staged after the calls [ss], given
    what was staged before. *)
Definition stagedInput (ss : list Setter) (before : option Value) : option Value :=
  fold_left (fun acc s => match s with WithInput v => Some v | _ => acc end) ss before.

Definition stagedFilters (ss : list Setter) (before : option (list (string * FilterSpec)))
  : option (list (string * FilterSpec)) :=
  fold_left (fun acc s => match s with WithFilters v => Some v | _ => acc end) ss before.

Definition stagedEvaluations (ss : list Setter) (before : option (list CandidateEvaluation))
  : option (list CandidateEvaluation) :=
  fold_left (fun acc s => match s with WithEvaluations v => Some v | _ => acc end) ss before.

Definition stagedReasoning (ss : list Setter) (before : option string) : option string :=
  fold_left (fun acc s => match s with WithReasoning v => Some v | _ => acc end) ss before.

Definition stagedMetadata (ss : list Setter) (before : option (list (string * Value)))
  : option (list (string * Value)) :=
  fold_left (fun acc s => match s with WithMetadata v => Some v | _ => acc end) ss before.

(** [StepDetail]: [failedEvaluations], [passedEvaluations],
    [sortedEvaluations] and [evaluationsToShow]. *)
Definition sortedEvaluations (evaluations : option (list CandidateEvaluation))
  : list CandidateEvaluation :=
  let failedEvaluations :=
    match evaluations with
    | Some es => List.filter (fun e => negb (qualified e)) es
    | None => []
    end in
  let passedEvaluations :=
    match evaluations with
    | Some es => List.filter (fun e => qualified e) es
    | None => []
    end in
  failedEvaluations ++ passedEvaluations.

Definition evaluationsToShow (showAllEvaluations : bool)
  (evaluations : option (list CandidateEvaluation)) : list CandidateEvaluation :=
  if showAllEvaluations then sortedEvaluations evaluations
  else slice (sortedEvaluations evaluations) 0 5.

(** [Dashboard]: [allExecutions], on the objects themselves. *)
Definition allExecutions (liveExecution : option XRayExecution)
  (executions : list XRayExecution) : list XRayExecution :=
  match liveExecution with
  | Some live =>
      live :: List.filter (fun e => negb (String.eqb (exec_id e) (exec_id live))) executions
  | None => executions
  end.

(** The instance and the sub-builder that [createXRay()] and then
    [step(..)] return in a world that has just started, and two worlds the
    scenarios start from. *)
Definition xray0 : XRayInstance :=
  {| execution := 0%nat; config := noConfig; autoSave := true |}.

Definition builder0 : StepBuilder :=
  {| this := xray0; stepData := 0%nat; startTime := 1000 |}.

Definition oneOpen : World := after openOnly (freshWorld steadyClock).

Definition twoStored : World := after twoTagged (freshWorld steadyClock).

(** How many of the listed executions have the id [id]. *)
Definition registrationsOfId (id : string) (l : list XRayExecution) : nat :=
  List.length (List.filter (fun e => String.eqb (exec_id e) id) l).

(** A subscriber and a hook for the scenarios below. *)
Definition observer : Subscriber := {| fn := 3; body := fun _ => Normal |}.
Definition brokenHook : Callback XRayStep := {| fn := 9; body := fun _ => Throws |}.
Definition stepHook : Callback XRayStep := {| fn := 8; body := fun _ => Normal |}.

Definition hookedConfig (hook : Callback XRayStep) : XRayConfig :=
  {| executionName := Some "Hooked"%string; cfg_description := None;
     cfg_context := None; cfg_tags := None; cfg_autoSave := None;
     onStepStart := None; onStepComplete := Some hook;
     onExecutionComplete := None |}.

Definition watchedConfig : XRayConfig :=
  {| executionName := Some "Watched"%string; cfg_description := None;
     cfg_context := None; cfg_tags := None; cfg_autoSave := None;
     onStepStart := Some stepHook; onStepComplete := None;
     onExecutionComplete := None |}.

Definition silentConfig : XRayConfig :=
  {| executionName := None; cfg_description := None;
     cfg_context := None; cfg_tags := None; cfg_autoSave := Some false;
     onStepStart := None; onStepComplete := None;
     onExecutionComplete := None |}.

(** Subscribers that make no call of the store while they run. *)
Definition noStoreCalls (f : nat) (e : XRayExecution) : list StoreCall := [].

(** A subscriber that, when notified, calls the unsubscribe action of
    [listener] and returns. *)
Definition remover : Subscriber := {| fn := 4; body := fun _ => Normal |}.

Definition removerCalls (f : nat) (e : XRayExecution) : list StoreCall :=
  if Nat.eqb f (fn remover) then [CallUnsubscribe listener] else [].

(** [xrayStore.subscribe(first); xrayStore.subscribe(listener);
     xrayStore.subscribe(listener); createXRay({ autoSave: false })] *)
Definition subscribeTwiceAfter (first : Subscriber) : Eff XRayInstance :=
  xrayStore.subscribe first ;;
  xrayStore.subscribe listener ;;
  xrayStore.subscribe listener ;;
  Sdk.createXRay silentConfig.

(* ------------------------------------------------------------------ *)
(** * Properties *)

Lemma with_calls_same (w : World) : with_calls (calls w) w = w.
Proof. now destruct w. Qed.

Lemma forEach_spec (subs : list Subscriber) (r : ref) (w : World) :
  InMemoryXRayStore.forEach subs r w =
  (if forallb (returns (execObjs w r)) subs then Ok tt else Exn,
   with_calls (calls w ++ notifications (reached subs (execObjs w r)) r) w).
Proof.
  revert w; induction subs as [|cb rest IH]; intro w.
  - cbn. now rewrite app_nil_r, with_calls_same.
  - cbn [InMemoryXRayStore.forEach forallb reached].
    unfold bind, read, call, returns at 1.
    destruct (body cb (execObjs w r)) eqn:Hb.
    + rewrite IH. cbn. now rewrite <- app_assoc.
    + reflexivity.
Qed.

Lemma save_spec (r : ref) (w : World) :
  InMemoryXRayStore.save r w =
  (if forallb (returns (execObjs w r)) (subscribers w) then Ok tt else Exn,
   with_calls (calls w ++ notifications (reached (subscribers w) (execObjs w r)) r)
     (with_executions (mapSet (exec_id (execObjs w r)) r (executions w)) w)).
Proof.
  unfold InMemoryXRayStore.save, bind, read, write.
  now rewrite forEach_spec.
Qed.
Arguments InMemoryXRayStore.save : simpl never.
Arguments decimal : simpl never.

Ltac split_effects :=
  repeat (match goal with
          | |- context [InMemoryXRayStore.save ?r ?w] => rewrite (save_spec r w)
          | |- context [match onStepStart ?c with _ => _ end] => destruct (onStepStart c)
          | |- context [match onStepComplete ?c with _ => _ end] => destruct (onStepComplete c)
          | |- context [match onExecutionComplete ?c with _ => _ end] =>
              destruct (onExecutionComplete c)
          | |- context [match body ?cb ?a with _ => _ end] => destruct (body cb a)
          | |- context [if autoSave ?i then _ else _] => destruct (autoSave i)
          | |- context [if forallb ?f ?l then _ else _] => destruct (forallb f l)
          end; cbn).

Ltac run_effects :=
  unfold after, result, Sdk.finalize, Sdk.complete, Sdk.fail, Sdk.step,
    Sdk.getExecution, Sdk.getSteps, generateId, random, newStep, newExecution, newArray,
    push, bind, read, now, setExecution, setStep, write, callOpt, when, call, ret;
  cbn; split_effects.

Lemma update_same {A} (m : ref -> A) (r : ref) (a : A) : update m r a r = a.
Proof. unfold update. now rewrite Nat.eqb_refl. Qed.

Lemma update_other {A} (m : ref -> A) (r r' : ref) (a : A) :
  r' <> r -> update m r a r' = m r'.
Proof. intro H. unfold update. apply Nat.eqb_neq in H. now rewrite H. Qed.

Lemma applySetter_spec (b : StepBuilder) (s : Setter) (w : World) :
  result (applySetter b s) w = Ok b /\ untouched (stepData b) w (after (applySetter b s) w).
Proof.
  split; [now destruct s|].
  destruct s; cbn; unfold untouched; cbn; rewrite update_same; cbn;
    repeat split; auto; intros; now apply update_other.
Qed.

Lemma untouched_refl r w : untouched r w w.
Proof. unfold untouched; repeat split; auto. Qed.

Lemma untouched_trans r w1 w2 w3 :
  untouched r w1 w2 -> untouched r w2 w3 -> untouched r w1 w3.
Proof.
  unfold untouched; intros H1 H2.
  repeat match goal with H : _ /\ _ |- _ => destruct H end.
  repeat split; try congruence.
  intros r' Hr.
  match goal with H : forall _, _ -> stepObjs w3 _ = _ |- _ => rewrite (H r' Hr) end. auto.
Qed.

Lemma chain_spec (b : StepBuilder) (ss : list Setter) (w : World) :
  result (chain b ss) w = Ok b /\ untouched (stepData b) w (after (chain b ss) w).
Proof.
  revert w; induction ss as [|s rest IH]; intro w.
  - split; [reflexivity | apply untouched_refl].
  - destruct (applySetter_spec b s w) as [Hr Hu].
    unfold result, after in *. cbn [chain]. unfold bind.
    destruct (applySetter b s w) as [r w1]. cbn in Hr, Hu. subst r.
    destruct (IH w1) as [Hr' Hu']. split; [exact Hr'|].
    eapply untouched_trans; eauto.
Qed.

(* ------------------------------------------------------------------ *)
(** ** Terminal calls of the sub-builder *)

(** The record [complete] builds and where it puts it. *)
Lemma complete_record (b : StepBuilder) (output : Value)
  (metrics : option StepMetrics) (w : World) :
  let w' := after (Sdk.complete b output metrics) w in
  let d := stepObjs w (stepData b) in
  let s := stepObjs w' (nextStep w) in
  step_status s = completed /\
  step_id s = step_id d /\
  step_startTime s = step_startTime d /\
  step_endTime s = Some (clock w (ticks w)) /\
  step_output s = Some output /\
  step_metrics s =
    Some (mergeDuration metrics (clock w (S (ticks w)) - startTime b)).
Proof.
  run_effects; rewrite update_same; cbn; auto 10.
Qed.

Lemma fail_record (b : StepBuilder) (error : string) (w : World) :
  let w' := after (Sdk.fail b error) w in
  let d := stepObjs w (stepData b) in
  let s := stepObjs w' (nextStep w) in
  step_status s = failed /\
  step_id s = step_id d /\
  step_startTime s = step_startTime d /\
  step_endTime s = Some (clock w (ticks w)) /\
  step_error s = Some error /\
  step_metrics s =
    Some (mergeDuration None (clock w (S (ticks w)) - startTime b)).
Proof.
  run_effects; rewrite update_same; cbn; auto 10.
Qed.

(** A terminal call allocates one step object, appends it to the steps of
    the owning execution and leaves every other object as it was. *)
Lemma complete_steps (b : StepBuilder) (output : Value)
  (metrics : option StepMetrics) (w : World) :
  let w' := after (Sdk.complete b output metrics) w in
  let e := execution (this b) in
  stepsOf w' e = stepsOf w e ++ [nextStep w] /\
  nextStep w' = S (nextStep w) /\
  execObjs w' = execObjs w /\
  subscribers w' = subscribers w /\
  (forall r, r <> nextStep w -> stepObjs w' r = stepObjs w r).
Proof.
  unfold stepsOf.
  run_effects; rewrite update_same; repeat split; auto;
    intros; now apply update_other.
Qed.

Lemma fail_steps (b : StepBuilder) (error : string) (w : World) :
  let w' := after (Sdk.fail b error) w in
  let e := execution (this b) in
  stepsOf w' e = stepsOf w e ++ [nextStep w] /\
  nextStep w' = S (nextStep w) /\
  execObjs w' = execObjs w /\
  subscribers w' = subscribers w /\
  (forall r, r <> nextStep w -> stepObjs w' r = stepObjs w r).
Proof.
  unfold stepsOf.
  run_effects; rewrite update_same; repeat split; auto;
    intros; now apply update_other.
Qed.

Lemma forallb_neverThrows {A} (a : A) (l : list (Callback A)) :
  (forall cb, In cb l -> neverThrows cb) -> forallb (returns a) l = true.
Proof.
  intro H. apply forallb_forall. intros cb Hin. unfold returns.
  now rewrite (H cb Hin a).
Qed.



(** When the two clock readings of [complete] agree and the builder still
    holds the start time it stamped, the recorded duration is
    [endTime - startTime]. *)
Lemma complete_duration_when_clock_steady (b : StepBuilder) (output : Value)
  (metrics : option StepMetrics) (w : World) :
  clock w (S (ticks w)) = clock w (ticks w) ->
  step_startTime (stepObjs w (stepData b)) = startTime b ->
  let s := stepObjs (after (Sdk.complete b output metrics) w) (nextStep w) in
  exists endTime d,
    step_endTime s = Some endTime /\
    option_map duration (step_metrics s) = Some (Some d) /\
    d = endTime - step_startTime s.
Proof.
  intros Hclock Hstart.
  destruct (complete_record b output metrics w) as (_ & _ & Hs & He & _ & Hm).
  cbn zeta. exists (clock w (ticks w)), (clock w (S (ticks w)) - startTime b).
  rewrite He, Hm, Hs, Hstart, Hclock. repeat split.
  now destruct metrics.
Qed.

(** C1.  [complete] reads the clock twice, once for [endTime] and once
    more for [duration].  When the clock advances between the two readings
    the recorded step is [completed], the caller's [duration: 999] is
    overridden, but [metrics.duration] (1) is not [endTime - startTime]
    (1000 - 1000 = 0). *)
Theorem complete_duration_differs_from_endTime :
  let w := after completeOnce (freshWorld tickingClock) in
  let s := stepObjs w 1%nat in
  result completeOnce (freshWorld tickingClock) = Ok 1%nat /\
  stepsOf w 0%nat = [1%nat] /\
  step_status s = completed /\
  step_startTime s = 1000 /\
  step_endTime s = Some 1000 /\
  option_map duration (step_metrics s) = Some (Some 1) /\
  ~ (exists endTime d,
       step_endTime s = Some endTime /\
       option_map duration (step_metrics s) = Some (Some d) /\
       d = endTime - step_startTime s).
Proof.
  vm_compute. repeat split.
  intros (endTime & d & He & Hd & Heq).
  inversion He; subst endTime. inversion Hd; subst d. discriminate.
Qed.

(* ------------------------------------------------------------------ *)
(** ** Opening a step *)

(** [step] allocates the builder's record and touches nothing a reader of
    the execution can see. *)
Lemma step_effects (i : XRayInstance) (name : string) (type : option StepType)
  (w : World) :
  let w' := after (Sdk.step i name type) w in
  arrays w' = arrays w /\
  execObjs w' = execObjs w /\
  clock w' = clock w /\
  ticks w' = S (S (ticks w)) /\
  nextStep w' = S (nextStep w) /\
  step_status (stepObjs w' (nextStep w)) = running /\
  step_startTime (stepObjs w' (nextStep w)) = clock w (S (ticks w)) /\
  (forall b, result (Sdk.step i name type) w = Ok b ->
             this b = i /\ stepData b = nextStep w /\
             startTime b = clock w (S (ticks w))).
Proof.
  run_effects; rewrite ?update_same; cbn; repeat split; auto;
    match goal with H : _ = Ok _ |- _ => inversion H; reflexivity end.
Qed.

(** The record of [step(..)], any setters, then [complete(output, metrics)]:
    completed, with the start time [step] stamped, the end time read
    first and a duration computed from a later reading of the clock; the
    other metrics are the caller's. *)
Lemma complete_after_setters
  (i : XRayInstance) (name : string) (type : option StepType)
  (ss : list Setter) (output : Value) (metrics : option StepMetrics)
  (w : World) (b : StepBuilder) :
  result (Sdk.step i name type) w = Ok b ->
  let w2 := after (chain b ss) (after (Sdk.step i name type) w) in
  let s := stepObjs (after (Sdk.complete b output metrics) w2) (nextStep w2) in
  let opened := clock w (1 + ticks w) in
  let ended := clock w (2 + ticks w) in
  let measured := clock w (3 + ticks w) in
  step_status s = completed /\
  step_startTime s = opened /\
  step_endTime s = Some ended /\
  step_output s = Some output /\
  step_metrics s = Some (mergeDuration metrics (measured - opened)) /\
  duration (mergeDuration metrics (measured - opened)) = Some (measured - opened).
Proof.
  intro Hb. cbn zeta.
  destruct (step_effects i name type w) as (_ & _ & Hc & Ht & _ & _ & Hstart & Hres).
  destruct (Hres b Hb) as (_ & Hdata & Hclosure).
  destruct (chain_spec b ss (after (Sdk.step i name type) w)) as [_ Hu].
  destruct Hu as (Hc2 & Ht2 & _ & _ & _ & _ & _ & _ & _ & _ & _ & _ & _ & _ & Hst2 & _).
  destruct (complete_record b output metrics
              (after (chain b ss) (after (Sdk.step i name type) w)))
    as (H1 & _ & H3 & H4 & H5 & H6).
  rewrite Hc2, Ht2, Hc, Ht in H4, H6. rewrite Hst2, Hdata, Hstart in H3.
  rewrite Hclosure in H6.
  repeat split; auto; try congruence.
  now destruct metrics.
Qed.

(** [step] calls [onStepStart], when the configuration has one, once and
    with the new record, and calls nothing else; this holds whether the
    hook returns or throws. *)
Lemma step_calls (i : XRayInstance) (name : string) (type : option StepType)
  (w : World) :
  calls (after (Sdk.step i name type) w)
  = calls w ++ match onStepStart (config i) with
               | Some hook => [StepStarted (fn hook) (nextStep w)]
               | None => []
               end.
Proof.
  unfold Sdk.step, callOpt.
  destruct (onStepStart (config i)) as [hook|].
  - run_effects; rewrite ?update_same; cbn; reflexivity.
  - run_effects; cbn; now rewrite app_nil_r.
Qed.

(** C2 (as the code has it).  [step] creates a record with status
    [running] and [startTime] stamped and hands it to [onStepStart], the
    one callback that runs, whether the hook returns or throws; but
    neither [step] nor the setters append anything to the steps of any
    execution.  A record of the step enters the sequence only with
    [complete] or [fail], already terminal. *)
Theorem step_appended_only_at_terminal_call
  (i : XRayInstance) (name : string) (type : option StepType)
  (ss : list Setter) (output : Value) (metrics : option StepMetrics)
  (error : string) (w : World) :
  let w1 := after (Sdk.step i name type) w in
  (* the record of the open step, and who is handed it *)
  step_status (stepObjs w1 (nextStep w)) = running /\
  step_startTime (stepObjs w1 (nextStep w)) = clock w (S (ticks w)) /\
  calls w1 = calls w ++ match onStepStart (config i) with
                        | Some hook => [StepStarted (fn hook) (nextStep w)]
                        | None => []
                        end /\
  (* readers of any execution see no change *)
  (forall e, stepsOf w1 e = stepsOf w e) /\
  (* the sub-builder, when [step] returns one *)
  (forall b, result (Sdk.step i name type) w = Ok b ->
     let w2 := after (chain b ss) w1 in
     stepData b = nextStep w /\
     step_status (stepObjs w2 (stepData b)) = running /\
     (forall e, stepsOf w2 e = stepsOf w e) /\
     calls w2 = calls w1 /\
     (* the terminal calls append *)
     (let w3 := after (Sdk.complete b output metrics) w2 in
      stepsOf w3 i.(execution) = stepsOf w i.(execution) ++ [nextStep w2] /\
      step_status (stepObjs w3 (nextStep w2)) = completed) /\
     (let w3 := after (Sdk.fail b error) w2 in
      stepsOf w3 i.(execution) = stepsOf w i.(execution) ++ [nextStep w2] /\
      step_status (stepObjs w3 (nextStep w2)) = failed)).
Proof.
  intro w1.
  pose proof (step_calls i name type w) as Hcalls.
  destruct (step_effects i name type w) as (Ha & He & _ & _ & Hn & Hst & Hstart & Hres).
  fold w1 in Ha, He, Hn, Hst, Hstart, Hcalls.
  assert (Hsteps1 : forall e, stepsOf w1 e = stepsOf w e).
  { intro e. unfold stepsOf. now rewrite Ha, He. }
  split; [exact Hst|]. split; [exact Hstart|]. split; [exact Hcalls|].
  split; [exact Hsteps1|].
  intros b Hb w2.
  destruct (Hres b Hb) as (Hthis & Hdata & _).
  destruct (chain_spec b ss w1) as [_ Hu].
  fold w2 in Hu. unfold untouched in Hu.
  destruct Hu as (_ & _ & _ & _ & He2 & _ & _ & Ha2 & _ & _ & _ & Hc2 & _ & Hst2 & _).
  assert (Hsteps : forall e, stepsOf w2 e = stepsOf w e).
  { intro e. unfold stepsOf. now rewrite Ha2, He2, Ha, He. }
  rewrite Hdata in *.
  repeat split; try (apply Hsteps); auto; try congruence.
  - destruct (complete_steps b output metrics w2) as (H & _).
    rewrite Hthis in H. rewrite H. now rewrite (Hsteps _).
  - apply (complete_record b output metrics w2).
  - destruct (fail_steps b error w2) as (H & _).
    rewrite Hthis in H. rewrite H. now rewrite (Hsteps _).
  - apply (fail_record b error w2).
Qed.

Lemma openOnly_returns :
  result openOnly (freshWorld steadyClock) =
  Ok {| this := {| execution := 0%nat; config := noConfig; autoSave := true |};
        stepData := 0%nat; startTime := 1000 |}.
Proof. reflexivity. Qed.

(** C2, witness: a step opened on a new execution, then completed; and
    a step opened on an instance with an [onStepStart] hook. *)
Lemma step_appended_only_at_terminal_call_witness :
  let w := after (Sdk.createXRay noConfig) (freshWorld steadyClock) in
  let i := {| execution := 0%nat; config := noConfig; autoSave := true |} in
  let b := {| this := i; stepData := 0%nat; startTime := 1000 |} in
  let w1 := after (Sdk.step i "Search" (Some search)) w in
  let watched := {| execution := 0%nat; config := watchedConfig; autoSave := true |} in
  (step_status (stepObjs w1 0%nat) = running /\ stepsOf w1 0%nat = []) /\
  stepsOf (after (Sdk.complete b VNull None) w1) 0%nat = [1%nat] /\
  calls (after (Sdk.step watched "Search" (Some search)) w) = [StepStarted 8 0%nat].
Proof.
  intros w i b w1 watched.
  pose proof (step_appended_only_at_terminal_call i "Search" (Some search) []
               VNull None "" w) as H.
  cbn zeta in H. destruct H as (H1 & _ & _ & H4 & H5).
  split; [split; [exact H1 | exact (H4 0%nat)]|].
  destruct (H5 b eq_refl) as (_ & _ & _ & _ & [Hdone _] & _).
  split; [exact Hdone|].
  pose proof (step_appended_only_at_terminal_call watched "Search" (Some search) []
               VNull None "" w) as H.
  cbn zeta in H. destruct H as (_ & _ & Hcalls & _).
  rewrite Hcalls. vm_compute. reflexivity.
Defined.

(** C2, counterexample: after [createXRay().step('Search', 'search')] the
    step is open, and the execution has no steps. *)
Lemma open_step_is_not_in_steps :
  let w := after openOnly (freshWorld steadyClock) in
  (exists b, result openOnly (freshWorld steadyClock) = Ok b /\
             step_status (stepObjs w (stepData b)) = running) /\
  stepsOf w 0%nat = [] /\
  ~ (exists s, In s (stepsOf w 0%nat) /\ step_status (stepObjs w s) = running).
Proof.
  cbn zeta. split; [|split].
  - eexists. split; [exact openOnly_returns | reflexivity].
  - reflexivity.
  - intros (s & Hin & _). exact Hin.
Qed.

(* ------------------------------------------------------------------ *)
(** ** Finalizing an execution *)

Lemma hasFailedStepIn_true (w : World) (e : ref) :
  Sdk.hasFailedStepIn w e = true <->
  exists s, In s (stepsOf w e) /\ step_status (stepObjs w s) = failed.
Proof.
  unfold Sdk.hasFailedStepIn, stepsOf. rewrite existsb_exists.
  split; intros (s & Hin & Hs); exists s; split; auto.
  - now destruct (step_status (stepObjs w s)).
  - now rewrite Hs.
Qed.

(** C3.  [finalize] sets the status to [failed] when a step of the
    execution is failed and to [completed] otherwise, and sets [endTime]
    to the clock reading and [finalOutput] to its argument; it returns the
    execution when no hook and no subscriber throws. *)
Theorem finalize_sets_status_endTime_finalOutput
  (i : XRayInstance) (finalOutput : option Value) (w : World) :
  let e := execObjs (after (Sdk.finalize i finalOutput) w) (execution i) in
  ((exists s, In s (stepsOf w (execution i)) /\ step_status (stepObjs w s) = failed) ->
   exec_status e = failed) /\
  ((forall s, In s (stepsOf w (execution i)) -> step_status (stepObjs w s) <> failed) ->
   exec_status e = completed) /\
  exec_endTime e = Some (clock w (ticks w)) /\
  exec_finalOutput e = finalOutput /\
  (quiet i w -> result (Sdk.finalize i finalOutput) w = Ok (execution i)).
Proof.
  cbn zeta.
  assert (Hret : quiet i w -> result (Sdk.finalize i finalOutput) w = Ok (execution i)).
  { intros (_ & _ & Hc & Hs).
    unfold result, Sdk.finalize, bind, read, now, setExecution, write, callOpt,
      when, call, ret; cbn.
    destruct (onExecutionComplete (config i)) as [cb|] eqn:Hcb; cbn.
    - rewrite (Hc cb eq_refl). destruct (autoSave i); cbn; [|reflexivity].
      rewrite save_spec. cbn. now rewrite (forallb_neverThrows _ _ Hs).
    - destruct (autoSave i); cbn; [|reflexivity].
      rewrite save_spec. cbn. now rewrite (forallb_neverThrows _ _ Hs). }
  assert (H : let w' := after (Sdk.finalize i finalOutput) w in
    exec_status (execObjs w' (execution i)) =
      (if Sdk.hasFailedStepIn w (execution i) then failed else completed)
    /\ exec_endTime (execObjs w' (execution i)) = Some (clock w (ticks w))
    /\ exec_finalOutput (execObjs w' (execution i)) = finalOutput).
  { run_effects; rewrite update_same; auto. }
  cbn zeta in H. destruct H as (Hs & He & Hf).
  repeat split; auto.
  - intro Hex. apply hasFailedStepIn_true in Hex. now rewrite Hs, Hex.
  - intro Hall. rewrite Hs.
    destruct (Sdk.hasFailedStepIn w (execution i)) eqn:Hf'; [|reflexivity].
    apply hasFailedStepIn_true in Hf'. destruct Hf' as (s & Hin & Hst).
    now destruct (Hall s Hin).
Qed.

(** C3, witness: an execution whose only step failed. *)
Lemma finalize_sets_status_endTime_finalOutput_witness :
  let w := after failOnce (freshWorld steadyClock) in
  let i := {| execution := 0%nat; config := noConfig; autoSave := true |} in
  exec_status (execObjs (after (Sdk.finalize i (Some (VNum 7))) w) (execution i)) = failed.
Proof.
  intros w i.
  refine (proj1 (finalize_sets_status_endTime_finalOutput i (Some (VNum 7)) w) _).
  exists 1%nat. split; vm_compute; [left|]; reflexivity.
Defined.

(* ------------------------------------------------------------------ *)
(** ** A sub-builder after its terminal call *)

Lemma terminal_record (b : StepBuilder) (t : Terminal) (w : World) :
  let s := stepObjs (after (terminal b t) w) (nextStep w) in
  step_status s = terminalStatus t /\
  step_id s = step_id (stepObjs w (stepData b)) /\
  step_startTime s = step_startTime (stepObjs w (stepData b)).
Proof.
  destruct t as [output metrics | error]; cbn [terminal terminalStatus].
  - destruct (complete_record b output metrics w) as (? & ? & ? & _). auto.
  - destruct (fail_record b error w) as (? & ? & ? & _). auto.
Qed.

Lemma terminal_steps (b : StepBuilder) (t : Terminal) (w : World) :
  let w' := after (terminal b t) w in
  let e := execution (this b) in
  stepsOf w' e = stepsOf w e ++ [nextStep w] /\
  nextStep w' = S (nextStep w) /\
  execObjs w' = execObjs w /\
  subscribers w' = subscribers w /\
  (forall r, r <> nextStep w -> stepObjs w' r = stepObjs w r).
Proof.
  destruct t as [output metrics | error]; cbn [terminal].
  - apply complete_steps.
  - apply fail_steps.
Qed.





(* ------------------------------------------------------------------ *)
(** ** Snapshots and stored executions *)

Lemma mapGet_mapSet (k : string) (v : ref) (m : list (string * ref)) :
  mapGet k (mapSet k v m) = Some v.
Proof.
  induction m as [|[k' v'] m IH]; cbn.
  - now rewrite String.eqb_refl.
  - destruct (String.eqb k' k) eqn:E; cbn.
    + now rewrite String.eqb_refl.
    + now rewrite E.
Qed.

(** C5 (as the code has it).  [getExecution] returns a copy of the top
    level only: a new object with the field values of the builder's
    execution, among them the reference to the same [steps] array.
    Assigning a field of the snapshot leaves the builder's execution as it
    was; pushing onto the snapshot's [steps] changes the steps of the
    builder's execution.  The store keeps and hands out the very object
    that was saved, so a write through what [get] returns is a write to
    the saved object. *)
Theorem getExecution_is_shallow_and_store_keeps_references
  (i : XRayInstance) (s : StepStatus) (x : ref) (w : World) :
  (execution i < nextExec w)%nat ->
  let w1 := after (Sdk.getExecution i) w in
  let snapshot := nextExec w in
  (* a new object with the same fields *)
  result (Sdk.getExecution i) w = Ok snapshot /\
  snapshot <> execution i /\
  execObjs w1 snapshot = execObjs w (execution i) /\
  execObjs w1 (execution i) = execObjs w (execution i) /\
  (* field assignment on the snapshot is not seen by the builder *)
  execObjs (after (assignStatus snapshot s) w1) (execution i) = execObjs w (execution i) /\
  (* the steps array is shared *)
  stepsOf (after (pushStep snapshot x) w1) (execution i) = stepsOf w (execution i) ++ [x] /\
  (* the store holds the saved object itself *)
  (forall e,
     let w2 := after (xrayStore.save e) w in
     result (xrayStore.get (exec_id (execObjs w e))) w2 = Ok (Some e) /\
     exec_status (execObjs (after (assignStatus e s) w2) e) = s).
Proof.
  intros Halloc. cbn zeta.
  assert (Hne : nextExec w <> execution i) by lia.
  assert (Hne' : execution i <> nextExec w) by lia.
  unfold stepsOf, pushStep, assignStatus.
  run_effects.
  rewrite !update_same, !(update_other _ _ _ _ Hne'). cbn.
  rewrite !update_same.
  repeat split; auto.
  - unfold xrayStore.get, result, read. rewrite save_spec. cbn.
    now rewrite mapGet_mapSet.
  - unfold after. rewrite save_spec. cbn. now rewrite update_same.
Qed.

(** C5, witness: a new execution. *)
Lemma getExecution_is_shallow_and_store_keeps_references_witness :
  let w := after (Sdk.createXRay noConfig) (freshWorld steadyClock) in
  let i := {| execution := 0%nat; config := noConfig; autoSave := true |} in
  result (Sdk.getExecution i) w = Ok 1%nat /\
  stepsOf (after (pushStep 1%nat 7%nat) (after (Sdk.getExecution i) w)) 0%nat = [7%nat].
Proof.
  intros w i.
  assert (Halloc : (execution i < nextExec w)%nat) by (vm_compute; lia).
  destruct (getExecution_is_shallow_and_store_keeps_references i failed 7%nat w Halloc)
    as (H1 & _ & _ & _ & _ & H2 & _).
  vm_compute in H1, H2. vm_compute. split; [exact H1 | exact H2].
Defined.

(** C5, counterexample: the snapshot is a new object, yet
    [snapshot.steps.push(s)] adds a step to the builder's execution; and
    what [xrayStore.get] returns is the builder's execution itself, so
    [stored.status = 'failed'] fails an execution that has no failed step. *)
Lemma snapshot_and_store_share_with_builder :
  (let w := after takeSnapshot (freshWorld steadyClock) in
   let xray := {| execution := 0%nat; config := noConfig; autoSave := true |} in
   let s := 1%nat in
   let snapshot := 1%nat in
   result takeSnapshot (freshWorld steadyClock) = Ok (xray, s, snapshot) /\
   snapshot <> execution xray /\
   stepsOf w (execution xray) = [s] /\
   stepsOf (after (pushStep snapshot s) w) (execution xray) = [s; s]) /\
  (let w := after assignOnStored (freshWorld steadyClock) in
   let xray := {| execution := 0%nat; config := noConfig; autoSave := true |} in
   result assignOnStored (freshWorld steadyClock) = Ok xray /\
   stepsOf w (execution xray) = [] /\
   exec_status (execObjs w (execution xray)) = failed).
Proof.
  vm_compute. repeat split. discriminate.
Qed.

(* ------------------------------------------------------------------ *)
(** ** Subscribers *)

Lemma reached_all (subs : list Subscriber) (e : XRayExecution) :
  (forall c, In c subs -> body c e = Normal) -> reached subs e = subs.
Proof.
  induction subs as [|c rest IH]; intro H; cbn; [reflexivity|].
  rewrite (H c (or_introl eq_refl)), IH; auto.
  intros c' Hin. apply H. now right.
Qed.


(** When every subscriber returns, [save] returns and has called each of
    them once, in the order of their registration. *)
Lemma save_notifies_all (r : ref) (w : World) :
  (forall c, In c (subscribers w) -> body c (execObjs w r) = Normal) ->
  result (xrayStore.save r) w = Ok tt /\
  calls (after (xrayStore.save r) w) = calls w ++ notifications (subscribers w) r.
Proof.
  intro H. unfold result, after. rewrite save_spec. cbn.
  rewrite (reached_all _ _ H). split; [|reflexivity].
  replace (forallb _ _) with true; [reflexivity|].
  symmetry. apply forallb_forall. intros c Hin. unfold returns. now rewrite (H c Hin).
Qed.




Lemma timesNotified_app (f : nat) (l1 l2 : list Event) :
  timesNotified f (l1 ++ l2) = (timesNotified f l1 + timesNotified f l2)%nat.
Proof. unfold timesNotified. now rewrite filter_app, length_app. Qed.

Lemma timesNotified_notifications (f : nat) (subs : list Subscriber) (r : ref) :
  timesNotified f (notifications subs r) = registrations f subs.
Proof.
  unfold timesNotified, registrations, notifications.
  induction subs as [|c rest IH]; cbn; [reflexivity|].
  destruct (Nat.eqb (fn c) f); cbn; now rewrite IH.
Qed.

Lemma registrations_reached_le (f : nat) (subs : list Subscriber) (e : XRayExecution) :
  (registrations f (reached subs e) <= registrations f subs)%nat.
Proof.
  unfold registrations.
  induction subs as [|c rest IH]; cbn; [lia|].
  destruct (body c e); destruct (Nat.eqb (fn c) f); cbn; lia.
Qed.

Lemma registrations_absent (f : nat) (subs : list Subscriber) :
  ~ In f (map fn subs) -> registrations f subs = 0%nat.
Proof.
  unfold registrations. induction subs as [|c rest IH]; cbn; [reflexivity|].
  intro H. destruct (Nat.eqb (fn c) f) eqn:E.
  - apply Nat.eqb_eq in E. destruct H. now left.
  - apply IH. intro Hin. apply H. now right.
Qed.

Lemma registrations_present (f : nat) (subs : list Subscriber) :
  NoDup (map fn subs) -> In f (map fn subs) -> registrations f subs = 1%nat.
Proof.
  induction subs as [|c rest IH]; cbn; [intros _ []|].
  intros Hnd Hin. inversion Hnd as [|? ? Hnotin Hnd']; subst.
  unfold registrations in *. cbn.
  destruct (Nat.eqb (fn c) f) eqn:E; cbn.
  - apply Nat.eqb_eq in E. subst f.
    now rewrite (registrations_absent _ _ Hnotin : List.length _ = 0%nat).
  - apply Nat.eqb_neq in E. destruct Hin as [Hin|Hin]; [contradiction|]. now apply IH.
Qed.

Lemma setHas_true (cb : Subscriber) (subs : list Subscriber) :
  setHas cb subs = true <-> In (fn cb) (map fn subs).
Proof.
  unfold setHas. rewrite existsb_exists, in_map_iff.
  split; intros (c & H1 & H2); exists c.
  - apply Nat.eqb_eq in H2. auto.
  - split; [auto|]. now apply Nat.eqb_eq.
Qed.

(** [Set.add] keeps the subscribers a set, [Set.delete] too. *)
Lemma setAdd_NoDup (cb : Subscriber) (subs : list Subscriber) :
  NoDup (map fn subs) -> NoDup (map fn (setAdd cb subs)).
Proof.
  intro H. unfold setAdd. destruct (setHas cb subs) eqn:E; [exact H|].
  rewrite map_app. cbn. apply NoDup_app; [exact H | repeat constructor; intros [] |].
  intros f Hin [Heq|[]]. subst f.
  apply setHas_true in Hin. congruence.
Qed.

Lemma setDelete_NoDup (cb : Subscriber) (subs : list Subscriber) :
  NoDup (map fn subs) -> NoDup (map fn (setDelete cb subs)).
Proof.
  unfold setDelete. induction subs as [|c rest IH]; cbn; [auto|].
  intro H. inversion H as [|? ? Hnotin Hnd]; subst.
  destruct (negb (Nat.eqb (fn c) (fn cb))); cbn; [|auto].
  constructor; [|auto]. intro Hin. apply Hnotin.
  apply in_map_iff in Hin. destruct Hin as (c' & Hfn & Hc').
  apply filter_In in Hc'. apply in_map_iff. exists c'. tauto.
Qed.

Lemma setAdd_registrations (cb : Subscriber) (subs : list Subscriber) :
  NoDup (map fn subs) -> registrations (fn cb) (setAdd cb subs) = 1%nat.
Proof.
  intro H. apply registrations_present; [now apply setAdd_NoDup|].
  unfold setAdd. destruct (setHas cb subs) eqn:E.
  - now apply setHas_true.
  - rewrite map_app. apply in_or_app. right. now left.
Qed.

Lemma setAdd_twice (cb : Subscriber) (subs : list Subscriber) :
  setAdd cb (setAdd cb subs) = setAdd cb subs.
Proof.
  unfold setAdd at 1.
  replace (setHas cb (setAdd cb subs)) with true; [reflexivity|].
  symmetry. apply setHas_true. unfold setAdd.
  destruct (setHas cb subs) eqn:E.
  - now apply setHas_true.
  - rewrite map_app. apply in_or_app. right. now left.
Qed.

Lemma setDelete_registrations (cb : Subscriber) (subs : list Subscriber) :
  registrations (fn cb) (setDelete cb subs) = 0%nat.
Proof.
  unfold registrations, setDelete.
  induction subs as [|c rest IH]; cbn; [reflexivity|].
  destruct (Nat.eqb (fn c) (fn cb)) eqn:E; cbn; [exact IH|].
  now rewrite E.
Qed.

(** What one [save] adds to the count of calls of a function. *)
Lemma save_timesNotified (f : nat) (r : ref) (w : World) :
  timesNotified f (calls (after (xrayStore.save r) w)) =
  (timesNotified f (calls w)
   + registrations f (reached (subscribers w) (execObjs w r)))%nat.
Proof.
  unfold after. rewrite save_spec. cbn [snd calls with_calls].
  now rewrite timesNotified_app, timesNotified_notifications.
Qed.

(** *** The pass over the live set *)

Lemma valuesOf_map_Some (subs : list Subscriber) : valuesOf (map Some subs) = subs.
Proof. induction subs as [|c rest IH]; cbn; [reflexivity | now rewrite IH]. Qed.

Lemma with_subscribers_same (w : World) : with_subscribers (subscribers w) w = w.
Proof. now destruct w. Qed.

Lemma nth_error_middle {A} (pre post : list A) (x : A) :
  nth_error (pre ++ x :: post) (List.length pre) = Some x.
Proof. induction pre as [|y pre IH]; cbn; [reflexivity | exact IH]. Qed.

Lemma nth_error_end {A} (l : list A) : nth_error l (List.length l) = None.
Proof. induction l as [|y l IH]; cbn; [reflexivity | exact IH]. Qed.

(** When the subscribers still to be visited make no call of the store,
    the pass over the live set is the pass over the subscribers read at
    its start. *)
Lemma forEachLive_quiet (storeCalls : nat -> XRayExecution -> list StoreCall)
  (post pre : list Subscriber) (fuel : nat) (r : ref) (w : World) :
  subscribers w = pre ++ post ->
  (forall c, In c post -> storeCalls (fn c) (execObjs w r) = []) ->
  (List.length post < fuel)%nat ->
  xrayStore.forEachLive storeCalls fuel (List.length pre) (map Some (pre ++ post)) r w
  = Some (xrayStore.forEach post r w).
Proof.
  revert pre fuel w. induction post as [|c rest IH]; intros pre fuel w Hsubs Hquiet Hfuel.
  - destruct fuel as [|fuel]; [cbn in Hfuel; lia|].
    cbn [xrayStore.forEachLive InMemoryXRayStore.forEachLive].
    rewrite app_nil_r in *. rewrite <- (length_map Some pre) at 1.
    rewrite nth_error_end, valuesOf_map_Some, <- Hsubs, with_subscribers_same.
    reflexivity.
  - destruct fuel as [|fuel]; [cbn in Hfuel; lia|].
    cbn [xrayStore.forEachLive InMemoryXRayStore.forEachLive].
    rewrite map_app. cbn [map]. rewrite <- (length_map Some pre) at 1.
    rewrite nth_error_middle.
    rewrite (Hquiet c (or_introl eq_refl)). cbn [fold_left].
    cbn [xrayStore.forEach InMemoryXRayStore.forEach]. unfold bind, read, call.
    destruct (body c (execObjs w r)) eqn:Hbody.
    + specialize (IH (pre ++ [c]) fuel
                     (with_calls (calls w ++ [Notified (fn c) r]) w)).
      rewrite length_app, Nat.add_1_r in IH. cbn [List.length] in IH.
      rewrite <- app_assoc in IH. cbn [app] in IH. rewrite map_app in IH. cbn [map] in IH.
      apply IH.
      * cbn. rewrite Hsubs. reflexivity.
      * intros c' Hin. apply (Hquiet c'). now right.
      * cbn in Hfuel. lia.
    + change (Some c :: map Some rest) with (map Some (c :: rest)).
      rewrite <- map_app, valuesOf_map_Some, <- Hsubs.
      replace (with_subscribers (subscribers w)
                 (with_calls (calls w ++ [Notified (fn c) r]) w))
        with (with_calls (calls w ++ [Notified (fn c) r]) w) by now destruct w.
      reflexivity.
Qed.

(** [save] with subscribers that make no call of the store while they
    run is the [save] that notifies the subscribers read at its start. *)
Lemma saveLive_quiet (storeCalls : nat -> XRayExecution -> list StoreCall)
  (fuel : nat) (r : ref) (w : World) :
  (forall c, In c (subscribers w) -> storeCalls (fn c) (execObjs w r) = []) ->
  (List.length (subscribers w) < fuel)%nat ->
  xrayStore.saveLive storeCalls fuel r w = Some (xrayStore.save r w).
Proof.
  intros Hquiet Hfuel. unfold xrayStore.saveLive, InMemoryXRayStore.saveLive.
  cbn zeta.
  set (w1 := with_executions (mapSet (exec_id (execObjs w r)) r (executions w)) w).
  pose proof (forEachLive_quiet storeCalls (subscribers w1) [] fuel r w1
                eq_refl Hquiet Hfuel) as Hpass.
  cbn [List.length app] in Hpass. rewrite Hpass.
  unfold InMemoryXRayStore.save, bind, read, write. reflexivity.
Qed.

(** A pass stops inside [pre] when one of [pre] throws. *)
Lemma reached_stops (pre rest : list Subscriber) (e : XRayExecution) :
  (exists p, In p pre /\ body p e = Throws) ->
  reached (pre ++ rest) e = reached pre e /\
  forallb (returns e) (pre ++ rest) = false.
Proof.
  induction pre as [|c pre IH]; intros (p & Hin & Hp); [destruct Hin|].
  cbn. unfold returns at 1. destruct (body c e) eqn:Hc; [|auto].
  destruct Hin as [->|Hin]; [congruence|].
  destruct IH as [IH1 IH2]; [now exists p|]. now rewrite IH1, IH2.
Qed.

Lemma registrations_app (f : nat) (l1 l2 : list Subscriber) :
  registrations f (l1 ++ l2) = (registrations f l1 + registrations f l2)%nat.
Proof. unfold registrations. now rewrite filter_app, length_app. Qed.

(** Where a function is registered, nothing before or after it is
    registered under the same function. *)
Lemma registrations_around (pre post : list Subscriber) (c : Subscriber) :
  NoDup (map fn (pre ++ c :: post)) ->
  registrations (fn c) pre = 0%nat /\ registrations (fn c) post = 0%nat.
Proof.
  rewrite map_app. cbn [map]. intro H.
  pose proof (NoDup_remove_2 _ _ _ H) as Hnotin.
  split; apply registrations_absent; intro Hin; apply Hnotin, in_or_app; auto.
Qed.

(** How often one [save] calls a registered function: once when the
    subscribers registered before it return, not at all when one of them
    throws. *)
Lemma registrations_reached_after (pre post : list Subscriber) (c : Subscriber)
  (e : XRayExecution) :
  NoDup (map fn (pre ++ c :: post)) ->
  ((forall p, In p pre -> body p e = Normal) ->
   registrations (fn c) (reached (pre ++ c :: post) e) = 1%nat) /\
  ((exists p, In p pre /\ body p e = Throws) ->
   registrations (fn c) (reached (pre ++ c :: post) e) = 0%nat /\
   forallb (returns e) (pre ++ c :: post) = false).
Proof.
  intro Hset. destruct (registrations_around pre post c Hset) as [Hpre Hpost].
  split.
  - intro Hreturn.
    assert (Hreach : reached (pre ++ c :: post) e = pre ++ reached (c :: post) e).
    { clear Hset Hpre. induction pre as [|p pre IH]; [reflexivity|].
      cbn. rewrite (Hreturn p (or_introl eq_refl)). f_equal. apply IH.
      intros q Hq. apply Hreturn. now right. }
    rewrite Hreach, registrations_app, Hpre. cbn [reached].
    pose proof (registrations_reached_le (fn c) post e) as Hle.
    unfold registrations in *. cbn. rewrite Nat.eqb_refl. cbn.
    destruct (body c e); cbn; lia.
  - intro Hthrows. destruct (reached_stops pre (c :: post) e Hthrows) as [Hreach Hres].
    rewrite Hreach. split; [|exact Hres].
    pose proof (registrations_reached_le (fn c) pre e). lia.
Qed.

(** C10 (as the code has it).  The subscribers are a set of functions:
    subscribing the same callback a second time changes nothing and the
    callback is registered once.  A [save] during which no subscriber
    calls the store calls it at most once: exactly once when the
    subscribers registered before it return, and not at all when one of
    them throws, in which case the [save] throws.  Both calls of
    [subscribe] return the same unsubscribe action; after it the callback
    is not registered and such a [save] does not call it. *)
Theorem subscribing_twice_registers_once
  (storeCalls : nat -> XRayExecution -> list StoreCall) (cb : Subscriber) (w : World) :
  NoDup (map fn (subscribers w)) ->
  let w1 := after (xrayStore.subscribe cb) w in
  let w2 := after (xrayStore.subscribe cb) w1 in
  (* registered once *)
  subscribers w2 = subscribers w1 /\
  registrations (fn cb) (subscribers w2) = 1%nat /\
  (* each save, for as long as the subscribers stay the same *)
  (forall r w' fuel,
     subscribers w' = subscribers w2 ->
     (forall c, In c (subscribers w') -> storeCalls (fn c) (execObjs w' r) = []) ->
     (List.length (subscribers w') < fuel)%nat ->
     exists res w'',
       xrayStore.saveLive storeCalls fuel r w' = Some (res, w'') /\
       (timesNotified (fn cb) (calls w'') <= timesNotified (fn cb) (calls w') + 1)%nat /\
       (exists pre c post, subscribers w' = pre ++ c :: post /\ fn c = fn cb) /\
       (forall pre c post, subscribers w' = pre ++ c :: post -> fn c = fn cb ->
          ((forall p, In p pre -> body p (execObjs w' r) = Normal) ->
           timesNotified (fn cb) (calls w'')
           = (timesNotified (fn cb) (calls w') + 1)%nat) /\
          ((exists p, In p pre /\ body p (execObjs w' r) = Throws) ->
           res = Exn /\
           timesNotified (fn cb) (calls w'') = timesNotified (fn cb) (calls w')))) /\
  (* either unsubscribe action *)
  result (xrayStore.subscribe cb) w = Ok (xrayStore.unsubscribe cb) /\
  result (xrayStore.subscribe cb) w1 = Ok (xrayStore.unsubscribe cb) /\
  (let w3 := after (xrayStore.unsubscribe cb) w2 in
   setHas cb (subscribers w3) = false /\
   registrations (fn cb) (subscribers w3) = 0%nat /\
   forall r w' fuel,
     subscribers w' = subscribers w3 ->
     (forall c, In c (subscribers w') -> storeCalls (fn c) (execObjs w' r) = []) ->
     (List.length (subscribers w') < fuel)%nat ->
     exists res w'',
       xrayStore.saveLive storeCalls fuel r w' = Some (res, w'') /\
       timesNotified (fn cb) (calls w'') = timesNotified (fn cb) (calls w')).
Proof.
  intro Hset. cbn zeta.
  assert (H1 : subscribers (after (xrayStore.subscribe cb) w) = setAdd cb (subscribers w))
    by reflexivity.
  assert (H2 : subscribers (after (xrayStore.subscribe cb)
                              (after (xrayStore.subscribe cb) w))
               = setAdd cb (subscribers w))
    by (cbn; apply setAdd_twice).
  assert (H3 : subscribers (after (xrayStore.unsubscribe cb)
                              (after (xrayStore.subscribe cb)
                                 (after (xrayStore.subscribe cb) w)))
               = setDelete cb (setAdd cb (subscribers w)))
    by (cbn; now rewrite setAdd_twice).
  rewrite H3, H2, H1.
  pose proof (setAdd_registrations cb _ Hset) as Hone.
  pose proof (setAdd_NoDup cb _ Hset) as Hset'.
  pose proof (setDelete_registrations cb (setAdd cb (subscribers w))) as Hzero.
  split; [reflexivity|]. split; [exact Hone|]. split; [|split; [|split]].
  - intros r w' fuel Hsubs Hquiet Hfuel.
    rewrite (saveLive_quiet storeCalls fuel r w' Hquiet Hfuel).
    exists (result (xrayStore.save r) w'), (after (xrayStore.save r) w').
    split; [unfold result, after; now destruct (xrayStore.save r w')|].
    rewrite save_timesNotified.
    split; [|split].
    + pose proof (registrations_reached_le (fn cb) (subscribers w') (execObjs w' r)).
      rewrite Hsubs in *. lia.
    + assert (Hin : In (fn cb) (map fn (subscribers w'))).
      { rewrite Hsubs. unfold setAdd. destruct (setHas cb (subscribers w)) eqn:E.
        - now apply setHas_true.
        - rewrite map_app. apply in_or_app. right. now left. }
      apply in_map_iff in Hin. destruct Hin as (c & Hfn & Hin).
      destruct (in_split _ _ Hin) as (pre & post & Hsplit).
      now exists pre, c, post.
    + intros pre c post Hsplit Hfn.
      rewrite <- Hsubs, Hsplit in Hset'.
      destruct (registrations_reached_after pre post c (execObjs w' r) Hset')
        as [Honce Hnone].
      rewrite <- Hfn, Hsplit. split.
      * intro Hreturn. now rewrite (Honce Hreturn).
      * intro Hthrows. destruct (Hnone Hthrows) as [Hreg Hres].
        rewrite Hreg. split; [|lia].
        unfold result. rewrite save_spec. cbn [fst]. rewrite Hsplit. now rewrite Hres.
  - reflexivity.
  - reflexivity.
  - split; [|split; [exact Hzero|]].
    + destruct (setHas cb (setDelete cb (setAdd cb (subscribers w)))) eqn:E; [|reflexivity].
      apply setHas_true in E. revert E. generalize (setAdd cb (subscribers w)).
      intros l Hin. apply in_map_iff in Hin. destruct Hin as (c & Hfn & Hc).
      unfold setDelete in Hc. apply filter_In in Hc. destruct Hc as [_ Hc].
      rewrite Hfn, Nat.eqb_refl in Hc. discriminate.
    + intros r w' fuel Hsubs Hquiet Hfuel.
      rewrite (saveLive_quiet storeCalls fuel r w' Hquiet Hfuel).
      exists (result (xrayStore.save r) w'), (after (xrayStore.save r) w').
      split; [unfold result, after; now destruct (xrayStore.save r w')|].
      rewrite save_timesNotified, Hsubs.
      pose proof (registrations_reached_le (fn cb)
                    (setDelete cb (setAdd cb (subscribers w))) (execObjs w' r)). lia.
Qed.

(** C10, witness: a listener subscribed twice after a subscriber that
    returns; one [save] calls it once. *)
Lemma subscribing_twice_registers_once_witness :
  let w := after (xrayStore.subscribe observer) (freshWorld steadyClock) in
  let w2 := after (xrayStore.subscribe listener) (after (xrayStore.subscribe listener) w) in
  registrations (fn listener) (subscribers w2) = 1%nat /\
  exists res w'',
    xrayStore.saveLive noStoreCalls 3 0%nat w2 = Some (res, w'') /\
    timesNotified (fn listener) (calls w'') = 1%nat.
Proof.
  intros w w2.
  assert (Hset : NoDup (map fn (subscribers w)))
    by (vm_compute; repeat constructor; cbn; intuition discriminate).
  destruct (subscribing_twice_registers_once noStoreCalls listener w Hset)
    as (_ & Hone & Hsave & _).
  split; [exact Hone|].
  assert (Hquiet : forall c, In c (subscribers w2) ->
                             noStoreCalls (fn c) (execObjs w2 0%nat) = [])
    by reflexivity.
  assert (Hfuel : (List.length (subscribers w2) < 3)%nat) by (vm_compute; lia).
  destruct (Hsave 0%nat w2 3%nat eq_refl Hquiet Hfuel)
    as (res & w'' & Hrun & _ & _ & Hexact).
  exists res, w''. split; [exact Hrun|].
  assert (Hsplit : subscribers w2 = [observer] ++ listener :: [])
    by (vm_compute; reflexivity).
  destruct (Hexact [observer] listener [] Hsplit eq_refl) as [Honce _].
  rewrite Honce; [vm_compute; reflexivity|].
  intros p [<-|[]]. reflexivity.
Defined.

(** C10, counterexample: a callback subscribed twice that a [save] does
    not call.  With a subscriber registered before it that throws, the
    [save] throws before it reaches the callback; with one registered
    before it that calls the callback's unsubscribe action and returns,
    the [save] returns and the pass skips the callback. *)
Lemma twice_subscribed_callback_is_not_called :
  (let w := after (subscribeTwiceAfter thrower) (freshWorld steadyClock) in
   map fn (subscribers w) = [1%nat; 2%nat] /\
   result (xrayStore.save 0%nat) w = Exn /\
   calls (after (xrayStore.save 0%nat) w) = [Notified 1 0%nat] /\
   timesNotified (fn listener) (calls (after (xrayStore.save 0%nat) w)) = 0%nat /\
   option_map fst (xrayStore.saveLive noStoreCalls 3 0%nat w) = Some Exn /\
   option_map (fun p => calls (snd p)) (xrayStore.saveLive noStoreCalls 3 0%nat w)
   = Some [Notified 1 0%nat]) /\
  (let w := after (subscribeTwiceAfter remover) (freshWorld steadyClock) in
   map fn (subscribers w) = [4%nat; 2%nat] /\
   option_map fst (xrayStore.saveLive removerCalls 3 0%nat w) = Some (Ok tt) /\
   option_map (fun p => calls (snd p)) (xrayStore.saveLive removerCalls 3 0%nat w)
   = Some [Notified 4 0%nat] /\
   option_map (fun p => timesNotified (fn listener) (calls (snd p)))
              (xrayStore.saveLive removerCalls 3 0%nat w) = Some 0%nat /\
   option_map (fun p => map fn (subscribers (snd p)))
              (xrayStore.saveLive removerCalls 3 0%nat w) = Some [4%nat]).
Proof.
  vm_compute. repeat split.
Qed.

(* ------------------------------------------------------------------ *)
(** ** Queries *)

Section Queries.

Import InMemoryXRayStore.

Variable localeCompare : string -> string -> Z.

(** [findAll] reads the world and leaves it as it is. *)
Lemma findAll_reads (o : QueryOptions) (w : World) :
  findAll localeCompare o w = (Ok (findAllIn localeCompare w o), w).
Proof. reflexivity. Qed.

Lemma insertSorted_perm {A} (compare : A -> A -> Z) (x : A) (l : list A) :
  Permutation (insertSorted compare x l) (x :: l).
Proof.
  induction l as [|y l IH]; cbn; [auto|].
  destruct (compare x y <=? 0); [auto|].
  rewrite IH. apply perm_swap.
Qed.

Lemma sort_perm {A} (compare : A -> A -> Z) (l : list A) :
  Permutation (sort compare l) l.
Proof.
  induction l as [|x l IH]; cbn; [auto|].
  rewrite insertSorted_perm. now constructor.
Qed.

Lemma filter_filter {A} (f g : A -> bool) (l : list A) :
  List.filter g (List.filter f l) = List.filter (fun x => f x && g x) l.
Proof.
  induction l as [|x l IH]; cbn; [reflexivity|].
  destruct (f x); cbn; [destruct (g x)|]; now rewrite IH.
Qed.

Lemma slice_whole {A} (l : list A) :
  slice l 0 (0 + Z.of_nat (List.length l)) = l.
Proof.
  unfold slice. cbn [Z.ltb Z.compare Z.add].
  destruct (Z.ltb_spec (Z.of_nat (List.length l)) 0); [lia|].
  rewrite Z.min_id, (Z.min_l 0) by lia.
  cbn [Z.to_nat skipn]. rewrite Z.sub_0_r, Nat2Z.id. apply firstn_all.
Qed.

Lemma slice_window {A} (l : list A) (s L : Z) :
  0 <= s -> 0 < L ->
  slice l s (s + L) = firstn (Z.to_nat L) (skipn (Z.to_nat s) l).
Proof.
  intros Hs HL. unfold slice.
  destruct (Z.ltb_spec s 0); [lia|]. destruct (Z.ltb_spec (s + L) 0); [lia|].
  destruct (Z_lt_le_dec s (Z.of_nat (List.length l))) as [Hlt|Hge].
  - rewrite (Z.min_l s) by lia.
    destruct (Z_le_gt_dec (s + L) (Z.of_nat (List.length l))) as [Hfit|Hover].
    + rewrite Z.min_l by lia. f_equal. lia.
    + rewrite Z.min_r by lia.
      rewrite !firstn_all2; auto; rewrite length_skipn; lia.
  - rewrite (Z.min_r s) by lia.
    rewrite Nat2Z.id, skipn_all, firstn_nil.
    rewrite skipn_all2 by lia. now rewrite firstn_nil.
Qed.

Lemma orElse_offset (v : Z) : orElse (Some v) 0 = v.
Proof. unfold orElse. destruct (Z.eqb_spec v 0); [lia | reflexivity]. Qed.

Lemma firstn_plus {A} (a b : nat) (l : list A) :
  firstn (a + b) l = firstn a l ++ firstn b (skipn a l).
Proof.
  revert l; induction a as [|a IH]; intro l; [reflexivity|].
  destruct l as [|x l]; cbn; [now rewrite firstn_nil | now rewrite IH].
Qed.

(** Page [k] is the window of [L] entries that starts at entry [k * L]. *)
Lemma page_window (w : World) (o : QueryOptions) (L : Z) (k : nat) :
  0 < L ->
  page localeCompare w o L k =
  firstn (Z.to_nat L) (skipn (k * Z.to_nat L) (sorted localeCompare w o)).
Proof.
  intro HL. unfold page, findAllIn.
  cbn [limit offset with_limit with_offset].
  rewrite orElse_offset.
  replace (orElse (Some L) _) with L by (unfold orElse; destruct (Z.eqb_spec L 0); lia).
  change (sorted localeCompare w
            (with_limit (Some L) (with_offset (Some (Z.of_nat k * L)) o)))
    with (sorted localeCompare w o).
  rewrite slice_window by lia. do 2 f_equal. lia.
Qed.

Lemma pages_prefix (w : World) (o : QueryOptions) (L : Z) (n : nat) :
  0 < L ->
  List.concat (map (page localeCompare w o L) (seq 0 n)) =
  firstn (n * Z.to_nat L) (sorted localeCompare w o).
Proof.
  intro HL. induction n as [|n IH]; [reflexivity|].
  rewrite seq_S, map_app, concat_app, IH. cbn [map List.concat Nat.add].
  rewrite app_nil_r, page_window by assumption.
  replace (S n * Z.to_nat L)%nat with (n * Z.to_nat L + Z.to_nat L)%nat by lia.
  now rewrite firstn_plus.
Qed.

Lemma findAll_unpaginated (w : World) (o : QueryOptions) :
  findAllIn localeCompare w (unpaginated o) = sorted localeCompare w o.
Proof.
  unfold findAllIn, unpaginated.
  cbn [limit offset with_limit with_offset orElse].
  change (sorted localeCompare w (with_limit None (with_offset None o)))
    with (sorted localeCompare w o).
  apply slice_whole.
Qed.

Lemma filtered_selects (w : World) (o : QueryOptions) :
  filtered w o =
  List.filter (fun r => statusMatches o (execObjs w r)
                        && tagsMatch o (execObjs w r)
                        && fromTimeMatches o (execObjs w r)
                        && toTimeMatches o (execObjs w r))
              (map snd (executions w)).
Proof.
  unfold filtered. rewrite !filter_filter.
  apply filter_ext. intro r. now rewrite ?andb_assoc.
Qed.

(** Distinct stored objects stay distinct through the filters and the sort. *)
Lemma sorted_NoDup (w : World) (o : QueryOptions) :
  NoDup (map snd (executions w)) -> NoDup (sorted localeCompare w o).
Proof.
  intro H. unfold sorted.
  apply (Permutation_NoDup (Permutation_sym (sort_perm _ _))).
  rewrite filtered_selects. now apply NoDup_filter.
Qed.

(** C8.  For a positive page size [L], the pages
    [findAll({limit: L, offset: 0})], [findAll({limit: L, offset: L})],
    ... taken until they cover the result, concatenate to [findAll] with
    the same filters and order and no pagination: nothing is missing,
    no stored object occurs twice, and every later page is empty. *)
Theorem pages_reconstruct_findAll
  (w : World) (o : QueryOptions) (L : Z) (n : nat) :
  0 < L ->
  Z.of_nat (List.length (findAllIn localeCompare w (unpaginated o))) <= Z.of_nat n * L ->
  let pages := map (page localeCompare w o L) (seq 0 n) in
  List.concat pages = findAllIn localeCompare w (unpaginated o) /\
  (NoDup (map snd (executions w)) -> NoDup (List.concat pages)) /\
  (forall k, (n <= k)%nat -> page localeCompare w o L k = []) /\
  (forall k,
     result (findAll localeCompare
               (with_limit (Some L) (with_offset (Some (Z.of_nat k * L)) o))) w
     = Ok (page localeCompare w o L k)) /\
  result (findAll localeCompare (unpaginated o)) w
  = Ok (findAllIn localeCompare w (unpaginated o)).
Proof.
  intros HL Hn. cbn zeta.
  assert (Hall : List.concat (map (page localeCompare w o L) (seq 0 n))
                 = findAllIn localeCompare w (unpaginated o)).
  { rewrite findAll_unpaginated in *.
    rewrite pages_prefix by assumption. apply firstn_all2. nia. }
  split; [exact Hall|]. split; [|split; [|split]].
  - intro Hdistinct. rewrite Hall, findAll_unpaginated. now apply sorted_NoDup.
  - intros k Hk. rewrite page_window by assumption.
    rewrite findAll_unpaginated in Hn.
    rewrite skipn_all2 by nia. apply firstn_nil.
  - intro k. reflexivity.
  - reflexivity.
Qed.

(** C9.  [limit: 0] is falsy, so [findAll] treats it as an absent limit;
    with no offset the result is the whole filtered, sorted sequence. *)
Theorem findAll_limit_zero_is_no_limit (w : World) (o : QueryOptions) :
  result (findAll localeCompare (with_limit (Some 0) o)) w
  = result (findAll localeCompare (with_limit None o)) w /\
  findAllIn localeCompare w (with_limit (Some 0) o)
  = findAllIn localeCompare w (with_limit None o) /\
  (offset o = None \/ offset o = Some 0 ->
   findAllIn localeCompare w (with_limit (Some 0) o) = sorted localeCompare w o).
Proof.
  split; [reflexivity|]. split; [reflexivity|].
  intros Hoff. unfold findAllIn.
  cbn [limit offset with_limit orElse Z.eqb].
  change (sorted localeCompare w (with_limit (Some 0) o))
    with (sorted localeCompare w o).
  replace (orElse (offset o) 0) with 0 by (destruct Hoff as [-> | ->]; reflexivity).
  apply slice_whole.
Qed.

Lemma hasAnyTag_intersects (ts : list string) (e : XRayExecution) :
  hasAnyTag ts e = true <-> intersects e ts.
Proof.
  unfold hasAnyTag, intersects. rewrite existsb_exists.
  split.
  - intros (tag & Hin & H). destruct (exec_tags e) as [own|]; [|discriminate].
    exists tag, own. repeat split; auto.
    unfold includes in H. apply existsb_exists in H.
    destruct H as (x & Hx & Heq). apply String.eqb_eq in Heq. now subst.
  - intros (tag & own & Hin & Hown & Hin'). exists tag. split; [auto|].
    rewrite Hown. unfold includes. apply existsb_exists.
    exists tag. split; [auto | apply String.eqb_refl].
Qed.

(** C7 (as the code has it).  With a non-empty [tags] option, [findAll]
    without pagination returns exactly the stored executions that pass
    the other filters and have at least one of the supplied tags; an
    execution tagged only [c] has none of [a], [b], one tagged [a], [c]
    has.  With an empty [tags] array, whatever the other options, the
    guard [options.tags.length > 0] skips the filter: [findAll] returns
    what it returns without a [tags] option, so without pagination every
    stored execution that passes the other filters. *)
Theorem findAll_tags_selects_any_of (w : World) (o : QueryOptions) :
  let found := findAllIn localeCompare w (unpaginated o) in
  (forall t ts, tags o = Some (t :: ts) ->
     Permutation found
       (List.filter (fun r => statusMatches o (execObjs w r)
                              && hasAnyTag (t :: ts) (execObjs w r)
                              && fromTimeMatches o (execObjs w r)
                              && toTimeMatches o (execObjs w r))
                    (map snd (executions w))) /\
     (forall r, In r found <->
                In r (map snd (executions w)) /\
                statusMatches o (execObjs w r) = true /\
                intersects (execObjs w r) (t :: ts) /\
                fromTimeMatches o (execObjs w r) = true /\
                toTimeMatches o (execObjs w r) = true)) /\
  (tags o = Some [] ->
     result (findAll localeCompare o) w
     = result (findAll localeCompare (with_tags None o)) w /\
     findAllIn localeCompare w o = findAllIn localeCompare w (with_tags None o) /\
     (forall r, In r found <->
                In r (map snd (executions w)) /\
                statusMatches o (execObjs w r) = true /\
                fromTimeMatches o (execObjs w r) = true /\
                toTimeMatches o (execObjs w r) = true)) /\
  (forall e, exec_tags e = Some ["c"%string] ->
             ~ intersects e ["a"%string; "b"%string]) /\
  (forall e, exec_tags e = Some ["a"%string; "c"%string] ->
             intersects e ["a"%string; "b"%string]).
Proof.
  cbn zeta. rewrite findAll_unpaginated.
  split; [|split; [|split]].
  - intros t ts Htags.
    assert (Hperm : Permutation (sorted localeCompare w o)
      (List.filter (fun r => statusMatches o (execObjs w r)
                             && hasAnyTag (t :: ts) (execObjs w r)
                             && fromTimeMatches o (execObjs w r)
                             && toTimeMatches o (execObjs w r))
                   (map snd (executions w)))).
    { unfold sorted. rewrite sort_perm, filtered_selects.
      unfold tagsMatch. now rewrite Htags. }
    split; [exact Hperm|].
    intro r. split.
    + intro Hin. apply (Permutation_in _ Hperm) in Hin.
      apply filter_In in Hin. destruct Hin as [Hin Hsel].
      apply andb_prop in Hsel. destruct Hsel as [Hsel Hto].
      apply andb_prop in Hsel. destruct Hsel as [Hsel Hfrom].
      apply andb_prop in Hsel. destruct Hsel as [Hst Htag].
      apply hasAnyTag_intersects in Htag. auto.
    + intros (Hin & Hst & Htag & Hfrom & Hto).
      apply (Permutation_in _ (Permutation_sym Hperm)).
      apply filter_In. split; [auto|].
      apply hasAnyTag_intersects in Htag. now rewrite Hst, Htag, Hfrom, Hto.
  - intro Htags.
    assert (Hsame : findAllIn localeCompare w o
                    = findAllIn localeCompare w (with_tags None o)).
    { unfold findAllIn, sorted, filtered, tagsMatch.
      cbn [with_tags tags limit offset]. rewrite Htags. reflexivity. }
    split; [|split; [exact Hsame|]].
    + unfold result, findAll, read. cbn [fst]. now rewrite Hsame.
    + assert (Hperm : Permutation (sorted localeCompare w o)
        (List.filter (fun r => statusMatches o (execObjs w r)
                               && fromTimeMatches o (execObjs w r)
                               && toTimeMatches o (execObjs w r))
                     (map snd (executions w)))).
      { unfold sorted. rewrite sort_perm, filtered_selects.
        unfold tagsMatch. rewrite Htags.
        erewrite filter_ext; [reflexivity|].
        intro r. cbn. now rewrite andb_true_r. }
      intro r. split.
      * intro Hin. apply (Permutation_in _ Hperm) in Hin.
        apply filter_In in Hin. destruct Hin as [Hin Hsel].
        apply andb_prop in Hsel. destruct Hsel as [Hsel Hto].
        apply andb_prop in Hsel. destruct Hsel as [Hst Hfrom]. auto.
      * intros (Hin & Hst & Hfrom & Hto).
        apply (Permutation_in _ (Permutation_sym Hperm)).
        apply filter_In. split; [auto|]. now rewrite Hst, Hfrom, Hto.
  - intros e He (tag & own & Hin & Hown & Hin').
    rewrite He in Hown. inversion Hown; subst own.
    destruct Hin' as [<-|[]]. destruct Hin as [H|[H|[]]]; discriminate.
  - intros e He. exists "a"%string, ["a"%string; "c"%string].
    repeat split; [now left | exact He | now left].
Qed.

End Queries.

(** C7, witness: of the executions tagged [c] and [a], [c], the tags [a],
    [b] select the second and not the first, and an empty tags array
    selects both. *)
Lemma findAll_tags_selects_any_of_witness :
  let w := after twoTagged (freshWorld steadyClock) in
  let found := InMemoryXRayStore.findAllIn codeUnitCompare w
                 (unpaginated (tagsOnly ["a"%string; "b"%string])) in
  let all := InMemoryXRayStore.findAllIn codeUnitCompare w
               (unpaginated (tagsOnly [])) in
  (In 1%nat found /\ ~ In 0%nat found) /\ (In 0%nat all /\ In 1%nat all).
Proof.
  intros w found all.
  destruct (findAll_tags_selects_any_of codeUnitCompare w
              (tagsOnly ["a"%string; "b"%string]))
    as (Hsome & _ & Hc & Hac).
  destruct (Hsome "a"%string ["b"%string] eq_refl) as (_ & Hiff).
  destruct (findAll_tags_selects_any_of codeUnitCompare w (tagsOnly []))
    as (_ & Hnone & _).
  destruct (Hnone eq_refl) as (_ & _ & Hall).
  split; split.
  - apply (proj2 (Hiff 1%nat)). split; [vm_compute; auto|].
    repeat split. apply Hac. vm_compute. reflexivity.
  - intro Hin. destruct (proj1 (Hiff 0%nat) Hin) as (_ & _ & Htag & _).
    apply (Hc (execObjs w 0%nat)); [vm_compute; reflexivity | exact Htag].
  - apply (proj2 (Hall 0%nat)). vm_compute. auto.
  - apply (proj2 (Hall 1%nat)). vm_compute. auto.
Defined.

(** C7, counterexample: [findAll({ tags: [] })] returns both executions,
    though neither has a tag in the empty set. *)
Lemma empty_tags_option_filters_nothing :
  let w := after twoTagged (freshWorld steadyClock) in
  result (InMemoryXRayStore.findAll codeUnitCompare (tagsOnly [])) w
    = Ok [0%nat; 1%nat] /\
  exec_tags (execObjs w 0%nat) = Some ["c"%string] /\
  (forall r, ~ intersects (execObjs w r) []).
Proof.
  cbn zeta. split; [vm_compute; reflexivity|]. split; [vm_compute; reflexivity|].
  intros r (tag & own & [] & _).
Qed.

(** C8, witness: two stored executions read in pages of one. *)
Lemma pages_reconstruct_findAll_witness :
  let w := after twoTagged (freshWorld steadyClock) in
  List.concat (map (page codeUnitCompare w noOptions 1) (seq 0 2))
  = InMemoryXRayStore.findAllIn codeUnitCompare w (unpaginated noOptions).
Proof.
  intro w.
  apply (pages_reconstruct_findAll codeUnitCompare w noOptions 1 2).
  - lia.
  - vm_compute. discriminate.
Defined.

(** C9, witness: [findAll({ limit: 0 })] on two stored executions. *)
Lemma findAll_limit_zero_is_no_limit_witness :
  let w := after twoTagged (freshWorld steadyClock) in
  InMemoryXRayStore.findAllIn codeUnitCompare w (with_limit (Some 0) noOptions)
  = InMemoryXRayStore.sorted codeUnitCompare w noOptions.
Proof.
  intro w.
  apply (findAll_limit_zero_is_no_limit codeUnitCompare w noOptions).
  left. reflexivity.
Defined.

Example findAll_limit_zero_returns_both :
  result (InMemoryXRayStore.findAll codeUnitCompare (with_limit (Some 0) noOptions))
         (after twoTagged (freshWorld steadyClock))
  = Ok [0%nat; 1%nat].
Proof. vm_compute. reflexivity. Qed.

(* ------------------------------------------------------------------ *)
(** * Further properties of the store *)

Lemma mapHas_keys (k : string) (m : list (string * ref)) :
  mapHas k m = true <-> In k (map fst m).
Proof.
  unfold mapHas. induction m as [|[k' v'] m IH]; cbn; [split; [discriminate | tauto]|].
  destruct (String.eqb_spec k' k) as [->|Hne].
  - split; auto.
  - rewrite IH. split; [auto | intros [H|H]; [contradiction | exact H]].
Qed.

Lemma mapGet_mapSet_other (k k' : string) (v : ref) (m : list (string * ref)) :
  k' <> k -> mapGet k' (mapSet k v m) = mapGet k' m.
Proof.
  intro Hne. induction m as [|[k0 v0] m IH]; cbn.
  - destruct (String.eqb_spec k k'); [congruence | reflexivity].
  - destruct (String.eqb_spec k0 k) as [->|Hk0]; cbn.
    + destruct (String.eqb_spec k k'); [congruence|].
      reflexivity.
    + destruct (String.eqb_spec k0 k'); [reflexivity | exact IH].
Qed.

Lemma mapSet_keys (k : string) (v : ref) (m : list (string * ref)) :
  map fst (mapSet k v m) =
  if mapHas k m then map fst m else map fst m ++ [k].
Proof.
  unfold mapHas. induction m as [|[k0 v0] m IH]; cbn; [reflexivity|].
  destruct (String.eqb_spec k0 k) as [->|Hne]; cbn; [reflexivity|].
  rewrite IH. now destruct (mapGet k m).
Qed.

Lemma mapSet_unique (k : string) (v : ref) (m : list (string * ref)) :
  NoDup (map fst m) -> NoDup (map fst (mapSet k v m)).
Proof.
  intro H. rewrite mapSet_keys. destruct (mapHas k m) eqn:E; [exact H|].
  apply NoDup_app; [exact H | repeat constructor; intros [] |].
  intros x Hin [<-|[]]. apply mapHas_keys in Hin. congruence.
Qed.

Lemma mapDelete_absent (k : string) (m : list (string * ref)) :
  mapHas k m = false -> mapDelete k m = m.
Proof.
  unfold mapHas. induction m as [|[k0 v0] m IH]; cbn; [reflexivity|].
  destruct (String.eqb_spec k0 k); [discriminate|].
  intro H. now rewrite IH.
Qed.

Lemma mapDelete_keys_incl (k x : string) (m : list (string * ref)) :
  In x (map fst (mapDelete k m)) -> In x (map fst m).
Proof.
  induction m as [|[k0 v0] m IH]; cbn; [auto|].
  destruct (String.eqb_spec k0 k); cbn; [auto|].
  intros [H|H]; auto.
Qed.

Lemma mapDelete_unique (k : string) (m : list (string * ref)) :
  NoDup (map fst m) -> NoDup (map fst (mapDelete k m)).
Proof.
  induction m as [|[k0 v0] m IH]; cbn; [auto|].
  intro H. inversion H as [|? ? Hnotin Hnd]; subst.
  destruct (String.eqb_spec k0 k); cbn; [exact Hnd|].
  constructor; [|auto]. intro Hin. apply Hnotin.
  now apply mapDelete_keys_incl in Hin.
Qed.

Lemma mapGet_absent (k : string) (m : list (string * ref)) :
  ~ In k (map fst m) -> mapGet k m = None.
Proof.
  intro H. destruct (mapGet k m) eqn:E; [|reflexivity].
  destruct H. apply mapHas_keys. unfold mapHas. now rewrite E.
Qed.

Lemma mapGet_mapDelete (k : string) (m : list (string * ref)) :
  NoDup (map fst m) -> mapGet k (mapDelete k m) = None.
Proof.
  induction m as [|[k0 v0] m IH]; cbn; [reflexivity|].
  intro H. inversion H as [|? ? Hnotin Hnd]; subst.
  destruct (String.eqb_spec k0 k) as [->|Hne]; cbn.
  - now apply mapGet_absent.
  - destruct (String.eqb_spec k0 k); [contradiction | auto].
Qed.

Lemma mapGet_mapDelete_other (k k' : string) (m : list (string * ref)) :
  k' <> k -> mapGet k' (mapDelete k m) = mapGet k' m.
Proof.
  intro Hne. induction m as [|[k0 v0] m IH]; cbn; [reflexivity|].
  destruct (String.eqb_spec k0 k) as [->|Hk0]; cbn.
  - destruct (String.eqb_spec k k'); [congruence | reflexivity].
  - destruct (String.eqb_spec k0 k'); [reflexivity | exact IH].
Qed.

Lemma mapDelete_length (k : string) (m : list (string * ref)) :
  List.length (mapDelete k m) =
  (List.length m - (if mapHas k m then 1 else 0))%nat.
Proof.
  unfold mapHas. induction m as [|[k0 v0] m IH]; cbn; [reflexivity|].
  destruct (String.eqb_spec k0 k); cbn; [lia|].
  rewrite IH. destruct (mapGet k m) eqn:E; [|lia].
  destruct m; [discriminate | cbn; lia].
Qed.

(** X1.  [save] is an upsert by id: afterwards [get] of the saved id
    returns the saved object, every other id maps to what it did, an
    id already present keeps its place and the count, a new id goes
    last and adds one.  This holds also when a subscriber throws. *)
Theorem save_is_upsert (r : ref) (w : World) :
  let id := exec_id (execObjs w r) in
  let w' := after (xrayStore.save r) w in
  result (xrayStore.get id) w' = Ok (Some r) /\
  (forall k, k <> id -> result (xrayStore.get k) w' = result (xrayStore.get k) w) /\
  map fst (executions w') =
    (if mapHas id (executions w) then map fst (executions w)
     else map fst (executions w) ++ [id]) /\
  result xrayStore.count w' =
    Ok (if mapHas id (executions w) then List.length (executions w)
        else S (List.length (executions w))).
Proof.
  cbn zeta. unfold after, result, xrayStore.get, xrayStore.count, read.
  rewrite save_spec. cbn [fst snd executions with_calls with_executions].
  split; [now rewrite mapGet_mapSet|]. split; [|split].
  - intros k Hk. now rewrite mapGet_mapSet_other.
  - apply mapSet_keys.
  - f_equal. rewrite <- !(length_map fst), mapSet_keys.
    destruct (mapHas _ _); [reflexivity|].
    rewrite length_app. cbn. lia.
Qed.

(** X2.  The store keeps one entry per id: if the ids of the entries are
    pairwise distinct, they are so after [save], [delete] and [clear]. *)
Theorem store_keeps_one_entry_per_id (r : ref) (id : string) (w : World) :
  NoDup (map fst (executions w)) ->
  NoDup (map fst (executions (after (xrayStore.save r) w))) /\
  NoDup (map fst (executions (after (xrayStore.delete id) w))) /\
  NoDup (map fst (executions (after xrayStore.clear w))).
Proof.
  intro H. split; [|split].
  - unfold after. rewrite save_spec. cbn. now apply mapSet_unique.
  - cbn. now apply mapDelete_unique.
  - cbn. constructor.
Qed.

(** X3.  [delete] reports whether the id was stored; afterwards [get] of
    that id finds nothing, every other id maps to what it did, the count
    went down by one exactly when an entry was removed, and no subscriber
    was called.  An id that is not stored leaves the store as it was. *)
Theorem delete_removes_the_entry (id : string) (w : World) :
  NoDup (map fst (executions w)) ->
  let w' := after (xrayStore.delete id) w in
  result (xrayStore.delete id) w = Ok (mapHas id (executions w)) /\
  result (xrayStore.get id) w' = Ok None /\
  (forall k, k <> id -> result (xrayStore.get k) w' = result (xrayStore.get k) w) /\
  result xrayStore.count w' =
    Ok (List.length (executions w) - (if mapHas id (executions w) then 1 else 0))%nat /\
  calls w' = calls w /\
  subscribers w' = subscribers w /\
  (mapHas id (executions w) = false -> executions w' = executions w).
Proof.
  intro H. cbn.
  split; [reflexivity|]. split; [now rewrite mapGet_mapDelete|].
  split; [intros k Hk; now rewrite mapGet_mapDelete_other|].
  split; [now rewrite mapDelete_length|].
  repeat split. apply mapDelete_absent.
Qed.

Lemma slice_nil {A} (a b : Z) : slice (@nil A) a b = [].
Proof. unfold slice. now rewrite skipn_nil, firstn_nil. Qed.

(** Counting by status over any list of objects. *)
Lemma fold_increment (w : World) (s : StepStatus) (l : list ref) (c : StatusCounts) :
  countOf (fold_left (fun counts r => increment counts (exec_status (execObjs w r))) l c) s
  = (countOf c s
     + List.length (List.filter (fun r => StepStatus_eqb (exec_status (execObjs w r)) s) l))%nat.
Proof.
  revert c; induction l as [|r l IH]; intro c; cbn [fold_left List.filter]; [cbn; lia|].
  rewrite IH.
  destruct (exec_status (execObjs w r)), s; cbn; lia.
Qed.

Lemma status_partition (w : World) (l : list ref) :
  (List.length (List.filter (fun r => StepStatus_eqb (exec_status (execObjs w r)) pending) l)
   + List.length (List.filter (fun r => StepStatus_eqb (exec_status (execObjs w r)) running) l)
   + List.length (List.filter (fun r => StepStatus_eqb (exec_status (execObjs w r)) completed) l)
   + List.length (List.filter (fun r => StepStatus_eqb (exec_status (execObjs w r)) failed) l)
   = List.length l)%nat.
Proof.
  induction l as [|r l IH]; cbn; [reflexivity|].
  destruct (exec_status (execObjs w r)); cbn; lia.
Qed.

Lemma filter_true {A} (l : list A) : List.filter (fun _ => true) l = l.
Proof. induction l as [|x l IH]; cbn; [reflexivity | now rewrite IH]. Qed.

Lemma StepStatus_eqb_eq (a b : StepStatus) : StepStatus_eqb a b = true <-> a = b.
Proof. destruct a, b; cbn; split; congruence. Qed.

Lemma insertSorted_sorted {A} (compare : A -> A -> Z) (le : A -> A -> Prop) :
  (forall x y, compare x y <= 0 -> le x y) ->
  (forall x y, 0 < compare x y -> le y x) ->
  (forall x y z, le x y -> le y z -> le x z) ->
  forall x l, StronglySorted le l -> StronglySorted le (insertSorted compare x l).
Proof.
  intros Hle Hgt Htrans x l. induction l as [|y l IH]; intro Hs; cbn.
  - repeat constructor.
  - apply StronglySorted_inv in Hs. destruct Hs as [Hs Hall].
    destruct (Z.leb_spec (compare x y) 0) as [Hc|Hc].
    + constructor; [now constructor|].
      constructor; [now apply Hle|].
      eapply Forall_impl; [|exact Hall]. intros z Hz. eapply Htrans; eauto.
    + constructor; [now apply IH|].
      apply (Permutation_Forall (Permutation_sym (insertSorted_perm compare x l))).
      constructor; [now apply Hgt | exact Hall].
Qed.

Lemma sort_sorted {A} (compare : A -> A -> Z) (le : A -> A -> Prop) :
  (forall x y, compare x y <= 0 -> le x y) ->
  (forall x y, 0 < compare x y -> le y x) ->
  (forall x y z, le x y -> le y z -> le x z) ->
  forall l, StronglySorted le (sort compare l).
Proof.
  intros Hle Hgt Htrans l. induction l as [|x l IH]; cbn; [constructor|].
  now apply insertSorted_sorted.
Qed.

Lemma StronglySorted_skipn {A} (le : A -> A -> Prop) (n : nat) (l : list A) :
  StronglySorted le l -> StronglySorted le (skipn n l).
Proof.
  revert l; induction n as [|n IH]; intros l H; [exact H|].
  destruct l as [|x l]; [exact H|]. cbn. apply IH.
  now apply StronglySorted_inv in H.
Qed.

Lemma StronglySorted_firstn {A} (le : A -> A -> Prop) (n : nat) (l : list A) :
  StronglySorted le l -> StronglySorted le (firstn n l).
Proof.
  revert l; induction n as [|n IH]; intros l H; [constructor|].
  destruct l as [|x l]; [constructor|]. cbn.
  apply StronglySorted_inv in H. destruct H as [H Hall].
  constructor; [now apply IH|].
  rewrite Forall_forall in *. intros y Hy. apply Hall.
  rewrite <- (firstn_skipn n l). apply in_or_app. now left.
Qed.

Lemma insertSorted_filter {A} (compare : A -> A -> Z) (p : A -> bool) (x : A) (l : list A) :
  (p x = true -> forall y, 0 < compare x y -> p y = false) ->
  List.filter p (insertSorted compare x l) = List.filter p (x :: l).
Proof.
  intro H. induction l as [|y l IH]; [reflexivity|].
  cbn [insertSorted]. destruct (Z.leb_spec (compare x y) 0) as [Hc|Hc]; [reflexivity|].
  cbn [List.filter] in *. rewrite IH.
  destruct (p x) eqn:Hx; [|reflexivity].
  now rewrite (H eq_refl y Hc).
Qed.

Lemma sort_filter {A} (compare : A -> A -> Z) (p : A -> bool) (l : list A) :
  (forall x y, p x = true -> 0 < compare x y -> p y = false) ->
  List.filter p (sort compare l) = List.filter p l.
Proof.
  intro H. induction l as [|x l IH]; [reflexivity|].
  cbn [sort fold_right]. rewrite insertSorted_filter.
  - cbn [List.filter]. fold (sort compare l). now rewrite IH.
  - intros Hx y. now apply H.
Qed.

Section StoreQueries.

Import InMemoryXRayStore.

Variable localeCompare : string -> string -> Z.

(** X4.  [clear] empties the store and nothing else: every query comes
    back empty, while the subscribers stay registered and the execution
    objects stay as they are, so a later [save] stores and notifies
    again. *)
Theorem clear_empties_only_the_entries
  (o : QueryOptions) (id : string) (r : ref) (w : World) :
  let w' := after clear w in
  result count w' = Ok 0%nat /\
  result (get id) w' = Ok None /\
  result (findAll localeCompare o) w' = Ok [] /\
  result getAll w' = Ok [] /\
  subscribers w' = subscribers w /\
  calls w' = calls w /\
  execObjs w' = execObjs w /\
  executions (after (save r) w') = [(exec_id (execObjs w r), r)] /\
  calls (after (save r) w') =
    calls w ++ notifications (reached (subscribers w) (execObjs w r)) r.
Proof.
  cbn zeta. unfold after. rewrite save_spec. cbn.
  repeat split. unfold findAll, findAllIn, sorted, filtered, result, read. cbn.
  now rewrite slice_nil.
Qed.

Lemma findByStatus_is_filter (s : StepStatus) (w : World) :
  exists found,
    result (findByStatus localeCompare s) w = Ok found /\
    Permutation found
      (List.filter (fun r => StepStatus_eqb (exec_status (execObjs w r)) s)
                   (map snd (executions w))).
Proof.
  eexists. split; [reflexivity|].
  change (findAllIn localeCompare w
            (Build_QueryOptions None None (Some s) None None None None None))
    with (findAllIn localeCompare w
            (unpaginated (Build_QueryOptions None None (Some s) None None None None None))).
  rewrite findAll_unpaginated. unfold sorted. rewrite sort_perm, filtered_selects.
  cbn. erewrite filter_ext; [reflexivity|].
  intro r. cbn. now rewrite !andb_true_r.
Qed.

(** X5.  [countByStatus] counts every stored execution once: its four
    numbers add up to [count()], and the number for a status is the
    number of executions [findByStatus] returns for it. *)
Theorem countByStatus_agrees_with_count_and_findByStatus (w : World) :
  exists counts,
    result countByStatus w = Ok counts /\
    result count w
      = Ok (n_pending counts + n_running counts + n_completed counts + n_failed counts)%nat /\
    forall s, exists found,
      result (findByStatus localeCompare s) w = Ok found /\
      countOf counts s = List.length found.
Proof.
  eexists. split; [reflexivity|]. split.
  - unfold result, count, read. cbn [fst]. f_equal.
    pose proof (fold_increment w pending (map snd (executions w)) noCounts) as Hp.
    pose proof (fold_increment w running (map snd (executions w)) noCounts) as Hr.
    pose proof (fold_increment w completed (map snd (executions w)) noCounts) as Hc.
    pose proof (fold_increment w failed (map snd (executions w)) noCounts) as Hf.
    pose proof (status_partition w (map snd (executions w))) as Hsum.
    cbn [countOf noCounts] in Hp, Hr, Hc, Hf.
    change (n_pending noCounts) with O in Hp. change (n_running noCounts) with O in Hr.
    change (n_completed noCounts) with O in Hc. change (n_failed noCounts) with O in Hf.
    rewrite length_map in Hsum. lia.
  - intro s. destruct (findByStatus_is_filter s w) as (found & Hres & Hperm).
    exists found. split; [exact Hres|].
    rewrite (Permutation_length Hperm), fold_increment. now destruct s.
Qed.

(** X6.  [findByStatus(s)] returns exactly the stored executions whose
    status is [s], each as often as it is stored, and all of them are
    among the results of [findAll()]. *)
Theorem findByStatus_selects_the_status (s : StepStatus) (w : World) :
  exists found everything,
    result (findByStatus localeCompare s) w = Ok found /\
    result (findAll localeCompare noOptions) w = Ok everything /\
    Permutation found
      (List.filter (fun r => StepStatus_eqb (exec_status (execObjs w r)) s)
                   (map snd (executions w))) /\
    (forall r, In r found <->
               In r (map snd (executions w)) /\ exec_status (execObjs w r) = s) /\
    incl found everything.
Proof.
  destruct (findByStatus_is_filter s w) as (found & Hres & Hperm).
  exists found, (findAllIn localeCompare w noOptions).
  split; [exact Hres|]. split; [reflexivity|]. split; [exact Hperm|].
  assert (Hiff : forall r, In r found <->
               In r (map snd (executions w)) /\ exec_status (execObjs w r) = s).
  { intro r. split.
    - intro Hin. apply (Permutation_in _ Hperm) in Hin.
      apply filter_In in Hin. now rewrite StepStatus_eqb_eq in Hin.
    - intros [Hin Hs]. apply (Permutation_in _ (Permutation_sym Hperm)).
      apply filter_In. now rewrite StepStatus_eqb_eq. }
  split; [exact Hiff|].
  intros r Hin. apply Hiff in Hin. destruct Hin as [Hin _].
  change (findAllIn localeCompare w noOptions)
    with (findAllIn localeCompare w (unpaginated noOptions)).
  rewrite findAll_unpaginated. unfold sorted.
  apply (Permutation_in _ (Permutation_sym (sort_perm _ _))).
  rewrite filtered_selects. cbn. now rewrite filter_true.
Qed.

(** X7.  [findByTimeRange(from, to)] returns exactly the stored
    executions with [from <= startTime <= to], both bounds included, and
    nothing when [to < from]. *)
Theorem findByTimeRange_is_inclusive (from to : Z) (w : World) :
  exists found,
    result (findByTimeRange localeCompare from to) w = Ok found /\
    (forall r, In r found <->
               In r (map snd (executions w)) /\
               from <= exec_startTime (execObjs w r) <= to) /\
    (to < from -> found = []).
Proof.
  eexists. split; [reflexivity|].
  change (findAllIn localeCompare w
            (Build_QueryOptions None None None None (Some from) (Some to) None None))
    with (findAllIn localeCompare w
            (unpaginated
               (Build_QueryOptions None None None None (Some from) (Some to) None None))).
  rewrite findAll_unpaginated. unfold sorted.
  set (o := Build_QueryOptions None None None None (Some from) (Some to) None None).
  assert (Hiff : forall r,
    In r (sort (fun a b => compareBy localeCompare o (execObjs w a) (execObjs w b))
               (filtered w o)) <->
    In r (map snd (executions w)) /\ from <= exec_startTime (execObjs w r) <= to).
  { intro r. rewrite filtered_selects. cbn.
    split.
    - intro Hin. apply (Permutation_in _ (sort_perm _ _)) in Hin.
      apply filter_In in Hin. destruct Hin as [Hin Hsel]. split; [exact Hin|].
      apply andb_prop in Hsel. destruct Hsel as [Hfrom Hto]. lia.
    - intros [Hin Hrange]. apply (Permutation_in _ (Permutation_sym (sort_perm _ _))).
      apply filter_In. split; [exact Hin|].
      apply andb_true_intro. split; lia. }
  split; [exact Hiff|].
  intro Hempty.
  destruct (sort _ (filtered w o)) as [|r rest]; [reflexivity|].
  assert (Hin : In r (r :: rest)) by now left.
  apply Hiff in Hin. lia.
Qed.

End StoreQueries.

Section StoreOrder.

Import InMemoryXRayStore.

Variable localeCompare : string -> string -> Z.

Lemma compareBy_numeric (o : QueryOptions) (a b : XRayExecution) :
  orderBy o <> Some byName ->
  compareBy localeCompare o a b =
  match orderDirection o with
  | Some asc => sortKey o a - sortKey o b
  | _ => sortKey o b - sortKey o a
  end.
Proof.
  intro H. unfold compareBy, sortKey.
  destruct (orderBy o) as [[| |]|]; try congruence;
    now destruct (orderDirection o) as [[|]|].
Qed.

Lemma slice_is_window {A} (l : list A) (a b : Z) :
  exists n m, slice l a b = firstn n (skipn m l).
Proof. unfold slice. eauto. Qed.

(** X8.  Unless the order is by name, the results of [findAll] are in
    order of the sort key ([startTime] by default, [endTime] with a
    missing or zero [endTime] counting as 0): descending by default,
    ascending for [orderDirection: 'asc'], on every page. *)
Theorem findAll_results_are_ordered (o : QueryOptions) (w : World) :
  orderBy o <> Some byName ->
  exists found,
    result (findAll localeCompare o) w = Ok found /\
    StronglySorted
      (fun a b => inOrder o (sortKey o (execObjs w a)) (sortKey o (execObjs w b)))
      found.
Proof.
  intro Hnum. eexists. split; [reflexivity|].
  unfold findAllIn.
  destruct (slice_is_window (sorted localeCompare w o)
              (orElse (offset o) 0)
              (orElse (offset o) 0
               + orElse (limit o) (Z.of_nat (List.length (sorted localeCompare w o)))))
    as (n & m & ->).
  apply StronglySorted_firstn, StronglySorted_skipn.
  unfold sorted. apply sort_sorted.
  - intros x y. rewrite compareBy_numeric by assumption.
    unfold inOrder. destruct (orderDirection o) as [[|]|]; lia.
  - intros x y. rewrite compareBy_numeric by assumption.
    unfold inOrder. destruct (orderDirection o) as [[|]|]; lia.
  - intros x y z. unfold inOrder. destruct (orderDirection o) as [[|]|]; lia.
Qed.

(** X9.  The sort is stable: unless the order is by name, the results
    of [findAll] without pagination that share a sort key appear in the
    order in which their ids were first saved. *)
Theorem findAll_keeps_store_order_among_equal_keys
  (o : QueryOptions) (k : Z) (w : World) :
  orderBy o <> Some byName ->
  List.filter (fun r => sortKey o (execObjs w r) =? k)
              (findAllIn localeCompare w (unpaginated o))
  = List.filter (fun r => statusMatches o (execObjs w r)
                          && tagsMatch o (execObjs w r)
                          && fromTimeMatches o (execObjs w r)
                          && toTimeMatches o (execObjs w r)
                          && (sortKey o (execObjs w r) =? k))
                (map snd (executions w)).
Proof.
  intro Hnum. rewrite findAll_unpaginated. unfold sorted.
  rewrite sort_filter.
  - rewrite filtered_selects. apply filter_filter.
  - intros x y Hx. rewrite compareBy_numeric by assumption.
    apply Z.eqb_eq in Hx. intro Hc. apply Z.eqb_neq.
    destruct (orderDirection o) as [[|]|]; lia.
Qed.

(** X10.  With an offset [O >= 0] and a limit [L > 0], [findAll] returns
    what is left of the sorted results after the first [O], at most [L]
    of them: [min(L, max(0, n - O))] entries of the [n] that match. *)
Theorem findAll_page_length (o : QueryOptions) (L O : Z) (w : World) :
  0 < L -> 0 <= O ->
  let n := List.length (findAllIn localeCompare w (unpaginated o)) in
  let found := findAllIn localeCompare w (with_limit (Some L) (with_offset (Some O) o)) in
  found = firstn (Z.to_nat L)
            (skipn (Z.to_nat O) (findAllIn localeCompare w (unpaginated o))) /\
  List.length found = Nat.min (Z.to_nat L) (n - Z.to_nat O).
Proof.
  intros HL HO. cbn zeta. rewrite findAll_unpaginated.
  assert (H : findAllIn localeCompare w (with_limit (Some L) (with_offset (Some O) o))
              = firstn (Z.to_nat L) (skipn (Z.to_nat O) (sorted localeCompare w o))).
  { unfold findAllIn. cbn [limit offset with_limit with_offset].
    rewrite orElse_offset.
    replace (orElse (Some L) _) with L by (unfold orElse; destruct (Z.eqb_spec L 0); lia).
    change (sorted localeCompare w (with_limit (Some L) (with_offset (Some O) o)))
      with (sorted localeCompare w o).
    now apply slice_window. }
  split; [exact H|]. now rewrite H, length_firstn, length_skipn.
Qed.

(** X11.  Negative pagination values are neither rejected nor clamped;
    they reach [slice] and count from the end.  With no offset, a limit
    [-k] returns the results without the last [k]; with no limit, an
    offset [-k] that does not exceed the number of results returns
    nothing. *)
Theorem findAll_negative_pagination (o : QueryOptions) (k : Z) (w : World) :
  0 < k ->
  let everything := findAllIn localeCompare w (unpaginated o) in
  findAllIn localeCompare w (with_limit (Some (- k)) (with_offset None o))
  = firstn (List.length everything - Z.to_nat k) everything /\
  (k <= Z.of_nat (List.length everything) ->
   findAllIn localeCompare w (with_limit None (with_offset (Some (- k)) o)) = []).
Proof.
  intro Hk. cbn zeta. rewrite findAll_unpaginated. split.
  - unfold findAllIn. cbn [limit offset with_limit with_offset orElse].
    change (sorted localeCompare w (with_limit (Some (- k)) (with_offset None o)))
      with (sorted localeCompare w o).
    destruct (Z.eqb_spec (- k) 0); [lia|].
    unfold slice. cbn [Z.ltb Z.compare Z.add].
    destruct (Z.ltb_spec (- k) 0); [|lia].
    rewrite (Z.min_l 0) by lia. cbn [Z.to_nat skipn]. f_equal. lia.
  - intro Hfits. unfold findAllIn. cbn [limit offset with_limit with_offset orElse].
    change (sorted localeCompare w (with_limit None (with_offset (Some (- k)) o)))
      with (sorted localeCompare w o).
    destruct (Z.eqb_spec (- k) 0); [lia|].
    unfold slice.
    destruct (Z.ltb_spec (- k) 0); [|lia].
    destruct (Z.ltb_spec (- k + Z.of_nat (List.length (sorted localeCompare w o))) 0);
      [lia|].
    replace (Z.to_nat _) with O by lia. reflexivity.
Qed.

End StoreOrder.

(* ------------------------------------------------------------------ *)
(** * Further properties of the builder *)

(** X12.  A new instance owns a new execution object that is [running],
    started at the clock reading taken after the one for its id, with no
    steps, no end time and no final output.  Unless [autoSave] is [false]
    the constructor saves it: it is in the store under its id and every
    subscriber reached has been called with it.  With [autoSave: false]
    the store has not been touched. *)
Theorem new_execution_is_running_and_saved (cfg : XRayConfig) (w : World) :
  let w' := after (Sdk.new cfg) w in
  let r := nextExec w in
  let e := execObjs w' r in
  exec_status e = running /\
  stepsOf w' r = [] /\
  exec_endTime e = None /\
  exec_finalOutput e = None /\
  exec_startTime e = clock w (S (ticks w)) /\
  exec_id e = String.append (decimal (clock w (ticks w)))
                (String.append "-" (entropy w (draws w))) /\
  (cfg_autoSave cfg <> Some false ->
   mapGet (exec_id e) (executions w') = Some r /\
   calls w' = calls w ++ notifications (reached (subscribers w) e) r) /\
  (cfg_autoSave cfg = Some false ->
   executions w' = executions w /\ calls w' = calls w) /\
  (forall i, result (Sdk.new cfg) w = Ok i -> execution i = r /\ config i = cfg).
Proof.
  cbn zeta. unfold stepsOf, Sdk.new.
  destruct (cfg_autoSave cfg) as [[|]|];
    run_effects; rewrite ?update_same; cbn; rewrite ?update_same;
    repeat split; try congruence; try apply mapGet_mapSet;
    try (match goal with H : Ok _ = Ok _ |- _ => inversion H; reflexivity end).
Qed.

(** What a terminal call does to the heap and to the store. *)
Lemma terminal_heap (b : StepBuilder) (t : Terminal) (w : World) :
  let w' := after (terminal b t) w in
  let a := exec_steps (execObjs w (execution (this b))) in
  arrays w' = update (arrays w) a (arrays w a ++ [nextStep w]) /\
  execObjs w' = execObjs w /\
  nextArray w' = nextArray w /\
  (autoSave (this b) = false ->
   executions w' = executions w /\
   forall f, timesNotified f (calls w') = timesNotified f (calls w)).
Proof.
  destruct t as [output metrics | error]; cbn [terminal];
    run_effects; repeat split; auto; try discriminate;
    intros; unfold timesNotified; rewrite ?filter_app; cbn; now rewrite ?app_nil_r.
Qed.

(** X13.  An instance created with [autoSave: false] never reaches the
    store: its terminal calls and [finalize] leave the stored entries as
    they are and call no subscriber. *)
Theorem without_autoSave_the_store_is_untouched
  (b : StepBuilder) (t : Terminal) (finalOutput : option Value) (w : World) :
  autoSave (this b) = false ->
  (let w' := after (terminal b t) w in
   executions w' = executions w /\
   forall f, timesNotified f (calls w') = timesNotified f (calls w)) /\
  (let w' := after (Sdk.finalize (this b) finalOutput) w in
   executions w' = executions w /\
   forall f, timesNotified f (calls w') = timesNotified f (calls w)).
Proof.
  intro Hoff. split.
  - now apply terminal_heap.
  - cbn zeta. unfold Sdk.finalize. rewrite Hoff.
    run_effects; repeat split; auto;
      intros; unfold timesNotified; rewrite ?filter_app; cbn; now rewrite ?app_nil_r.
Qed.

(** X14.  Every instance has a steps array of its own: a step recorded
    on a new instance is its only step and does not show among the steps
    of any execution that existed before. *)
Theorem new_execution_has_its_own_steps
  (cfg : XRayConfig) (other : ref) (b : StepBuilder) (t : Terminal) (w : World) :
  (exec_steps (execObjs w other) < nextArray w)%nat ->
  (other < nextExec w)%nat ->
  execution (this b) = nextExec w ->
  let w1 := after (Sdk.new cfg) w in
  let w2 := after (terminal b t) w1 in
  stepsOf w2 other = stepsOf w other /\
  stepsOf w2 (nextExec w) = [nextStep w1].
Proof.
  intros Harr Hother Hb. cbn zeta.
  destruct (terminal_heap b t (after (Sdk.new cfg) w)) as (Ha & He & _).
  unfold stepsOf. rewrite Ha, He, Hb.
  assert (Hobj : exec_steps (execObjs (after (Sdk.new cfg) w) (nextExec w)) = nextArray w
                 /\ execObjs (after (Sdk.new cfg) w) other = execObjs w other
                 /\ arrays (after (Sdk.new cfg) w) (nextArray w) = []
                 /\ arrays (after (Sdk.new cfg) w) (exec_steps (execObjs w other))
                    = arrays w (exec_steps (execObjs w other))).
  { unfold Sdk.new. destruct (cfg_autoSave cfg) as [[|]|];
      run_effects; rewrite ?update_same; cbn;
      rewrite ?update_same, ?(update_other _ (nextExec w) other),
              ?(update_other _ (nextArray w) (exec_steps (execObjs w other))) by lia;
      auto. }
  destruct Hobj as (Hsteps & Hsame & Hempty & Hold).
  rewrite Hsteps, Hsame, update_same, Hempty.
  rewrite update_other by lia. auto.
Qed.


(** What [finalize] leaves alone, and what it writes. *)
Lemma finalize_heap (i : XRayInstance) (finalOutput : option Value) (w : World) :
  let w' := after (Sdk.finalize i finalOutput) w in
  arrays w' = arrays w /\
  stepObjs w' = stepObjs w /\
  clock w' = clock w /\
  ticks w' = S (ticks w) /\
  exec_steps (execObjs w' (execution i)) = exec_steps (execObjs w (execution i)) /\
  exec_id (execObjs w' (execution i)) = exec_id (execObjs w (execution i)) /\
  exec_startTime (execObjs w' (execution i)) = exec_startTime (execObjs w (execution i)) /\
  exec_status (execObjs w' (execution i))
    = (if Sdk.hasFailedStepIn w (execution i) then failed else completed) /\
  exec_endTime (execObjs w' (execution i)) = Some (clock w (ticks w)) /\
  exec_finalOutput (execObjs w' (execution i)) = finalOutput.
Proof.
  run_effects; rewrite ?update_same; cbn; auto 12.
Qed.

(** X16.  [finalize] has no guard against a second call and recomputes:
    called again it overwrites [endTime] with the next clock reading and
    [finalOutput] with the new argument, and gives the same status as
    long as no step was recorded in between; if a step failed after the
    first call, the second call turns the execution [failed]. *)
Theorem finalize_again_recomputes
  (i : XRayInstance) (first second : option Value)
  (b : StepBuilder) (error : string) (w : World) :
  execution (this b) = execution i ->
  let w1 := after (Sdk.finalize i first) w in
  let again := execObjs (after (Sdk.finalize i second) w1) (execution i) in
  let late := execObjs (after (Sdk.finalize i second) (after (Sdk.fail b error) w1))
                       (execution i) in
  exec_status again = exec_status (execObjs w1 (execution i)) /\
  exec_endTime again = Some (clock w (S (ticks w))) /\
  exec_finalOutput again = second /\
  exec_status late = failed.
Proof.
  intro Hb. cbn zeta.
  destruct (finalize_heap i first w)
    as (Ha & Hs & Hc & Ht & He & _ & _ & Hst1 & _).
  destruct (finalize_heap i second (after (Sdk.finalize i first) w))
    as (_ & _ & _ & _ & _ & _ & _ & Hst2 & Hend2 & Hout2).
  rewrite Hc, Ht in Hend2.
  assert (Hsame : Sdk.hasFailedStepIn (after (Sdk.finalize i first) w) (execution i)
                  = Sdk.hasFailedStepIn w (execution i))
    by (unfold Sdk.hasFailedStepIn; now rewrite Ha, Hs, He).
  split; [now rewrite Hst2, Hsame, Hst1|].
  split; [exact Hend2|]. split; [exact Hout2|].
  destruct (finalize_heap i second
              (after (Sdk.fail b error) (after (Sdk.finalize i first) w)))
    as (_ & _ & _ & _ & _ & _ & _ & Hst3 & _).
  rewrite Hst3.
  replace (Sdk.hasFailedStepIn _ (execution i)) with true; [reflexivity|].
  symmetry. apply hasFailedStepIn_true.
  destruct (fail_steps b error (after (Sdk.finalize i first) w)) as (Hsteps & _).
  destruct (fail_record b error (after (Sdk.finalize i first) w)) as (Hst & _).
  rewrite Hb in Hsteps.
  exists (nextStep (after (Sdk.finalize i first) w)). split; [|exact Hst].
  rewrite Hsteps. apply in_or_app. right. now left.
Qed.

(** X17.  [getSteps] returns a new array with the steps recorded so far:
    pushing onto the copy does not add a step to the execution, and a
    step recorded later does not show in the copy. *)
Theorem getSteps_is_a_detached_copy
  (i : XRayInstance) (x : ref) (b : StepBuilder) (t : Terminal) (w : World) :
  (exec_steps (execObjs w (execution i)) < nextArray w)%nat ->
  execution (this b) = execution i ->
  let w1 := after (Sdk.getSteps i) w in
  let copy := nextArray w in
  result (Sdk.getSteps i) w = Ok copy /\
  arrays w1 copy = stepsOf w (execution i) /\
  stepsOf (after (push copy x) w1) (execution i) = stepsOf w (execution i) /\
  arrays (after (terminal b t) w1) copy = stepsOf w (execution i) /\
  stepsOf (after (terminal b t) w1) (execution i) = stepsOf w (execution i) ++ [nextStep w].
Proof.
  intros Halloc Hb. cbn zeta.
  destruct (terminal_heap b t (after (Sdk.getSteps i) w)) as (Ha & He & _).
  unfold stepsOf in *. rewrite Ha, He, Hb.
  unfold Sdk.getSteps, push. run_effects.
  repeat (rewrite update_same || rewrite update_other by lia). auto.
Qed.

(** X18.  An execution keeps its id and its single entry in the store
    through its life: once stored, a terminal call or [finalize] on it
    leaves the ids of the store and their order as they are, and the id
    still leads to the same object. *)
Theorem execution_keeps_its_store_entry
  (b : StepBuilder) (t : Terminal) (finalOutput : option Value) (w : World) :
  let e := execution (this b) in
  let id := exec_id (execObjs w e) in
  mapGet id (executions w) = Some e ->
  (let w' := after (terminal b t) w in
   exec_id (execObjs w' e) = id /\
   map fst (executions w') = map fst (executions w) /\
   mapGet id (executions w') = Some e) /\
  (let w' := after (Sdk.finalize (this b) finalOutput) w in
   exec_id (execObjs w' e) = id /\
   map fst (executions w') = map fst (executions w) /\
   mapGet id (executions w') = Some e).
Proof.
  cbn zeta. intro Hstored.
  assert (Hhas : mapHas (exec_id (execObjs w (execution (this b)))) (executions w) = true)
    by (unfold mapHas; now rewrite Hstored).
  split.
  - destruct t as [output metrics | error]; cbn [terminal];
      run_effects; rewrite ?mapSet_keys, ?Hhas, ?mapGet_mapSet; auto.
  - run_effects; rewrite ?update_same; cbn;
      rewrite ?mapSet_keys, ?Hhas, ?mapGet_mapSet; auto.
Qed.

Lemma applySetter_fields (b : StepBuilder) (s : Setter) (w : World) :
  let d := stepObjs w (stepData b) in
  let d' := stepObjs (after (applySetter b s) w) (stepData b) in
  step_input d' = stagedInput [s] (step_input d) /\
  step_filtersApplied d' = stagedFilters [s] (step_filtersApplied d) /\
  step_evaluations d' = stagedEvaluations [s] (step_evaluations d) /\
  step_reasoning d' = stagedReasoning [s] (step_reasoning d) /\
  step_metadata d' = stagedMetadata [s] (step_metadata d).
Proof.
  destruct s; cbn; rewrite update_same; cbn; auto.
Qed.

Lemma chain_fields (b : StepBuilder) (ss : list Setter) (w : World) :
  let d := stepObjs w (stepData b) in
  let d' := stepObjs (after (chain b ss) w) (stepData b) in
  step_input d' = stagedInput ss (step_input d) /\
  step_filtersApplied d' = stagedFilters ss (step_filtersApplied d) /\
  step_evaluations d' = stagedEvaluations ss (step_evaluations d) /\
  step_reasoning d' = stagedReasoning ss (step_reasoning d) /\
  step_metadata d' = stagedMetadata ss (step_metadata d).
Proof.
  revert w; induction ss as [|s rest IH]; intro w; [cbn; auto|].
  destruct (applySetter_spec b s w) as [Hr _].
  destruct (applySetter_fields b s w) as (H1 & H2 & H3 & H4 & H5).
  cbn zeta in *. unfold after, result in *. cbn [chain]. unfold bind.
  destruct (applySetter b s w) as [r w1]. cbn [fst snd] in *. subst r.
  destruct (IH w1) as (I1 & I2 & I3 & I4 & I5).
  rewrite I1, I2, I3, I4, I5, H1, H2, H3, H4, H5. auto.
Qed.

Lemma chain_keeps_name (b : StepBuilder) (ss : list Setter) (w : World) :
  step_name (stepObjs (after (chain b ss) w) (stepData b))
  = step_name (stepObjs w (stepData b)) /\
  step_type (stepObjs (after (chain b ss) w) (stepData b))
  = step_type (stepObjs w (stepData b)).
Proof.
  revert w; induction ss as [|s rest IH]; intro w; [cbn; auto|].
  destruct (applySetter_spec b s w) as [Hr _].
  assert (H : step_name (stepObjs (after (applySetter b s) w) (stepData b))
              = step_name (stepObjs w (stepData b)) /\
              step_type (stepObjs (after (applySetter b s) w) (stepData b))
              = step_type (stepObjs w (stepData b)))
    by (destruct s; cbn; rewrite update_same; auto).
  unfold after, result in *. cbn [chain]. unfold bind.
  destruct (applySetter b s w) as [r w1]. cbn [fst snd] in *. subst r.
  destruct (IH w1) as [I1 I2]. destruct H as [H1 H2].
  now rewrite I1, I2, H1, H2.
Qed.

Lemma terminal_carries_staged_fields (b : StepBuilder) (t : Terminal) (w : World) :
  let d := stepObjs w (stepData b) in
  let s := stepObjs (after (terminal b t) w) (nextStep w) in
  step_name s = step_name d /\
  step_type s = step_type d /\
  step_input s = step_input d /\
  step_filtersApplied s = step_filtersApplied d /\
  step_evaluations s = step_evaluations d /\
  step_reasoning s = step_reasoning d /\
  step_metadata s = step_metadata d.
Proof.
  destruct t as [output metrics | error]; cbn [terminal];
    run_effects; rewrite update_same; cbn; auto 10.
Qed.

(** With no [onStepComplete] hook and no subscriber, a terminal call
    runs no callback. *)
Lemma terminal_calls_nothing (b : StepBuilder) (t : Terminal) (w : World) :
  onStepComplete (config (this b)) = None ->
  subscribers w = [] ->
  calls (after (terminal b t) w) = calls w.
Proof.
  intros Hhook Hsubs.
  destruct t as [output metrics | error]; cbn [terminal];
    unfold after, Sdk.complete, Sdk.fail, newStep, push, bind, read, now, write,
      callOpt, when, call, ret; cbn; rewrite Hhook; cbn;
    destruct (autoSave (this b)); cbn; rewrite ?save_spec; cbn;
    rewrite ?Hsubs; cbn; now rewrite ?app_nil_r.
Qed.

Lemma step_keeps_subscribers (i : XRayInstance) (name : string)
  (type : option StepType) (w : World) :
  subscribers (after (Sdk.step i name type) w) = subscribers w.
Proof. run_effects; reflexivity. Qed.

(** X19.  What the setters staged is what the terminal call records.
    The callbacks are handed the records themselves, so this is stated
    for an instance without [onStepStart] and [onStepComplete] hooks and
    a store without subscribers, where no callback runs: for each of
    input, filters, evaluations, reasoning and metadata the record of
    [complete] or [fail] then carries the value of the last call of that
    setter (earlier calls are overwritten, setters of another kind do
    not disturb it), and nothing when it was never called. *)
Theorem terminal_record_carries_the_last_staged_values
  (i : XRayInstance) (name : string) (type : option StepType)
  (ss : list Setter) (t : Terminal) (w : World) (b : StepBuilder) :
  onStepStart (config i) = None ->
  onStepComplete (config i) = None ->
  subscribers w = [] ->
  result (Sdk.step i name type) w = Ok b ->
  let w2 := after (chain b ss) (after (Sdk.step i name type) w) in
  let w3 := after (terminal b t) w2 in
  let s := stepObjs w3 (nextStep w2) in
  step_name s = name /\
  step_type s = match type with Some ty => ty | None => custom end /\
  step_input s = stagedInput ss None /\
  step_filtersApplied s = stagedFilters ss None /\
  step_evaluations s = stagedEvaluations ss None /\
  step_reasoning s = stagedReasoning ss None /\
  step_metadata s = stagedMetadata ss None /\
  calls w3 = calls w.
Proof.
  intros Hstart Hcomplete Hsubs Hb. cbn zeta.
  destruct (step_effects i name type w) as (_ & _ & _ & _ & _ & _ & _ & Hres).
  destruct (Hres b Hb) as (Hthis & Hdata & _).
  destruct (terminal_carries_staged_fields b t
              (after (chain b ss) (after (Sdk.step i name type) w)))
    as (T0 & T0' & T1 & T2 & T3 & T4 & T5).
  destruct (chain_fields b ss (after (Sdk.step i name type) w))
    as (C1 & C2 & C3 & C4 & C5).
  cbn zeta in *. rewrite T0, T0', T1, T2, T3, T4, T5, C1, C2, C3, C4, C5.
  assert (Hopen : let d := stepObjs (after (Sdk.step i name type) w) (nextStep w) in
            step_name d = name /\
            step_type d = match type with Some ty => ty | None => custom end /\
            step_input d = None /\ step_filtersApplied d = None /\
            step_evaluations d = None /\ step_reasoning d = None /\
            step_metadata d = None).
  { run_effects; rewrite update_same; cbn; auto 10. }
  cbn zeta in Hopen. rewrite <- Hdata in Hopen.
  destruct Hopen as (O0 & O0' & O1 & O2 & O3 & O4 & O5).
  rewrite O1, O2, O3, O4, O5.
  destruct (chain_keeps_name b ss (after (Sdk.step i name type) w)) as [N1 N2].
  rewrite N1, N2, O0, O0'.
  assert (Hcalls : calls (after (terminal b t)
                            (after (chain b ss) (after (Sdk.step i name type) w)))
                   = calls w).
  { destruct (chain_spec b ss (after (Sdk.step i name type) w)) as [_ Hu].
    destruct Hu as (_ & _ & _ & _ & _ & _ & _ & _ & _ & _ & Hs2 & Hc2 & _).
    rewrite terminal_calls_nothing.
    - rewrite Hc2, step_calls, Hstart. apply app_nil_r.
    - now rewrite Hthis.
    - now rewrite Hs2, step_keeps_subscribers. }
  auto 10.
Qed.

(** X20.  A throwing [onStepComplete] hook makes [complete] and [fail]
    throw after the step has been recorded: the step is in the steps of
    the execution with its terminal status, but the autosave that would
    have followed is skipped, so the store is not updated and no
    subscriber is called. *)
Theorem throwing_step_hook_skips_the_autosave
  (b : StepBuilder) (t : Terminal) (hook : Callback XRayStep) (w : World) :
  onStepComplete (config (this b)) = Some hook ->
  (forall s, body hook s = Throws) ->
  let w' := after (terminal b t) w in
  result (terminal b t) w = Exn /\
  stepsOf w' (execution (this b)) = stepsOf w (execution (this b)) ++ [nextStep w] /\
  step_status (stepObjs w' (nextStep w)) = terminalStatus t /\
  executions w' = executions w /\
  calls w' = calls w ++ [StepCompleted (fn hook) (nextStep w)].
Proof.
  intros Hhook Hthrows. cbn zeta.
  destruct (terminal_steps b t w) as (Hsteps & _).
  destruct (terminal_record b t w) as (Hstatus & _).
  split; [|split; [exact Hsteps | split; [exact Hstatus|]]].
  - destruct t as [output metrics | error]; cbn [terminal];
      unfold result, Sdk.complete, Sdk.fail, newStep, push, bind, read, now, write,
        callOpt, when, call, ret; cbn; rewrite Hhook; cbn; now rewrite Hthrows.
  - destruct t as [output metrics | error]; cbn [terminal];
      unfold after, Sdk.complete, Sdk.fail, newStep, push, bind, read, now, write,
        callOpt, when, call, ret; cbn; rewrite Hhook; cbn; rewrite Hthrows; auto.
Qed.

(** X21.  A throwing [onExecutionComplete] hook makes [finalize] throw
    after it has set the status, the end time and the final output on
    the execution; the final save is skipped: no entry of the store is
    written and no subscriber is called. *)
Theorem throwing_completion_hook_skips_the_final_save
  (i : XRayInstance) (finalOutput : option Value)
  (hook : Callback XRayExecution) (w : World) :
  onExecutionComplete (config i) = Some hook ->
  (forall e, body hook e = Throws) ->
  let w' := after (Sdk.finalize i finalOutput) w in
  result (Sdk.finalize i finalOutput) w = Exn /\
  exec_endTime (execObjs w' (execution i)) = Some (clock w (ticks w)) /\
  exec_finalOutput (execObjs w' (execution i)) = finalOutput /\
  exec_status (execObjs w' (execution i))
    = (if Sdk.hasFailedStepIn w (execution i) then failed else completed) /\
  executions w' = executions w /\
  calls w' = calls w ++ [ExecutionCompleted (fn hook) (execution i)].
Proof.
  intros Hhook Hthrows. cbn zeta.
  unfold result, after, Sdk.finalize, bind, read, now, setExecution, write, callOpt,
    when, call, ret; cbn.
  rewrite Hhook. cbn. rewrite Hthrows. cbn. rewrite update_same. cbn. auto 10.
Qed.

(* ------------------------------------------------------------------ *)
(** * Presentation helpers *)

Lemma filter_false {A} (l : list A) : List.filter (fun _ => false) l = [].
Proof. induction l; cbn; auto. Qed.

Lemma unqualified_then_qualified (f p : list CandidateEvaluation) :
  Forall (fun e => qualified e = false) f ->
  Forall (fun e => qualified e = true) p ->
  StronglySorted (fun a b => qualified a = true -> qualified b = true) (f ++ p).
Proof.
  intros Hf Hp. induction f as [|x f IH]; cbn.
  - clear Hf. induction p as [|y p IHp]; [constructor|].
    inversion Hp; subst. constructor; [auto|].
    eapply Forall_impl; [|eassumption]. cbn. auto.
  - inversion Hf; subst. constructor; [auto|].
    apply Forall_forall. intros y _ Hx. congruence.
Qed.

Lemma unqualified_qualified_perm (l : list CandidateEvaluation) :
  Permutation (List.filter (fun e => negb (qualified e)) l
               ++ List.filter (fun e => qualified e) l) l.
Proof.
  induction l as [|e es IH]; cbn; [constructor|].
  destruct (qualified e); cbn.
  - rewrite <- Permutation_middle. now constructor.
  - now constructor.
Qed.

(** X23.  The step detail view lists the candidates that did not qualify
    before those that did, each group in the order of the step's
    evaluations and every candidate once; collapsed, it shows the first
    five of that list.  A step without evaluations lists nothing. *)
Theorem sortedEvaluations_puts_unqualified_first
  (evaluations : list CandidateEvaluation) :
  let listed := sortedEvaluations (Some evaluations) in
  Permutation listed evaluations /\
  StronglySorted (fun a b => qualified a = true -> qualified b = true) listed /\
  List.filter (fun e => negb (qualified e)) listed
    = List.filter (fun e => negb (qualified e)) evaluations /\
  List.filter qualified listed = List.filter qualified evaluations /\
  evaluationsToShow false (Some evaluations) = firstn 5 listed /\
  (List.length (evaluationsToShow false (Some evaluations)) <= 5)%nat /\
  sortedEvaluations None = [].
Proof.
  cbn zeta. unfold evaluationsToShow, sortedEvaluations.
  split; [apply unqualified_qualified_perm|].
  split; [|split; [|split; [|split; [|split]]]].
  - apply unqualified_then_qualified; apply Forall_forall; intros e He;
      apply filter_In in He; destruct He as [_ He]; now destruct (qualified e).
  - rewrite filter_app, !filter_filter.
    rewrite (filter_ext (fun x => negb (qualified x) && negb (qualified x))
                        (fun x => negb (qualified x)))
      by (intro x; now destruct (qualified x)).
    rewrite (filter_ext (fun x => qualified x && negb (qualified x)) (fun _ => false))
      by (intro x; now destruct (qualified x)).
    now rewrite filter_false, app_nil_r.
  - rewrite filter_app, !filter_filter.
    rewrite (filter_ext (fun x => negb (qualified x) && qualified x) (fun _ => false))
      by (intro x; now destruct (qualified x)).
    rewrite (filter_ext (fun x => qualified x && qualified x) (fun x => qualified x))
      by (intro x; now destruct (qualified x)).
    now rewrite filter_false.
  - change 5 with (0 + 5). rewrite slice_window by lia. reflexivity.
  - change 5 with (0 + 5). rewrite slice_window by lia.
    rewrite length_firstn. cbn. lia.
  - reflexivity.
Qed.

Lemma filter_all {A} (f : A -> bool) (l : list A) :
  (forall x, In x l -> f x = true) -> List.filter f l = l.
Proof.
  induction l as [|x l IH]; intro H; cbn; [reflexivity|].
  rewrite (H x (or_introl eq_refl)), IH; auto.
  intros y Hy. apply H. now right.
Qed.

(** X24.  The dashboard lists the live execution first and once: the
    given executions follow in their order, without any that has the id
    of the live one.  So when none of them has that id the list is the
    live execution followed by the given ones, and when their ids are
    distinct and one of them has that id, the list is the given one with
    that entry taken out and the live execution put in front; distinct
    ids stay distinct.  Without a live execution the list is the given
    one. *)
Theorem allExecutions_lists_the_live_execution_once
  (live : XRayExecution) (given : list XRayExecution) :
  let listed := allExecutions (Some live) given in
  hd_error listed = Some live /\
  (* the rest is the given list, in its order, without the live id *)
  tl listed
  = List.filter (fun e => negb (String.eqb (exec_id e) (exec_id live))) given /\
  (forall e, In e (tl listed) <-> In e given /\ exec_id e <> exec_id live) /\
  ((forall e, In e given -> exec_id e <> exec_id live) -> listed = live :: given) /\
  (forall before old later,
     given = before ++ old :: later ->
     exec_id old = exec_id live ->
     NoDup (map exec_id given) ->
     listed = live :: before ++ later) /\
  (forall given1 given2,
     given = given1 ++ given2 ->
     tl listed = tl (allExecutions (Some live) given1)
                 ++ tl (allExecutions (Some live) given2)) /\
  registrationsOfId (exec_id live) listed = 1%nat /\
  (NoDup (map exec_id given) -> NoDup (map exec_id listed)) /\
  allExecutions None given = given.
Proof.
  cbn zeta. unfold allExecutions, registrationsOfId. cbn [hd_error tl].
  assert (Hrest : forall e,
    In e (List.filter (fun e => negb (String.eqb (exec_id e) (exec_id live))) given)
    <-> In e given /\ exec_id e <> exec_id live).
  { intro e. rewrite filter_In. split; intros [Hin Hne]; split; auto.
    - destruct (String.eqb_spec (exec_id e) (exec_id live)); [discriminate | auto].
    - destruct (String.eqb_spec (exec_id e) (exec_id live)); [contradiction | auto]. }
  split; [reflexivity|]. split; [reflexivity|]. split; [exact Hrest|].
  split; [|split; [|split; [|split; [|split; [|reflexivity]]]]].
  - intro Hnone. f_equal. apply filter_all. intros e Hin.
    destruct (String.eqb_spec (exec_id e) (exec_id live)); [|reflexivity].
    now destruct (Hnone e Hin).
  - intros before old later Hsplit Hold Hdistinct. f_equal. subst given.
    rewrite filter_app. cbn [List.filter]. rewrite Hold, String.eqb_refl. cbn [negb].
    rewrite map_app in Hdistinct. cbn [map] in Hdistinct.
    pose proof (NoDup_remove_2 _ _ _ Hdistinct) as Hnotin.
    rewrite !filter_all; [reflexivity| |].
    + intros e Hin. destruct (String.eqb_spec (exec_id e) (exec_id live)); [|reflexivity].
      destruct Hnotin. apply in_or_app. right. apply in_map_iff. exists e.
      split; [congruence | exact Hin].
    + intros e Hin. destruct (String.eqb_spec (exec_id e) (exec_id live)); [|reflexivity].
      destruct Hnotin. apply in_or_app. left. apply in_map_iff. exists e.
      split; [congruence | exact Hin].
  - intros given1 given2 ->. apply filter_app.
  - cbn. rewrite String.eqb_refl. cbn. f_equal.
    rewrite filter_filter.
    rewrite (filter_ext _ (fun _ => false))
      by (intro x; now destruct (String.eqb (exec_id x) (exec_id live))).
    now rewrite filter_false.
  - intro Hdistinct. cbn. constructor.
    + intro Hin. apply in_map_iff in Hin. destruct Hin as (e & Heq & Hin).
      apply Hrest in Hin. tauto.
    + clear Hrest. induction given as [|e es IH]; cbn; [constructor|].
      inversion Hdistinct as [|? ? Hnotin Hnd]; subst.
      destruct (String.eqb (exec_id e) (exec_id live)); cbn; [auto|].
      constructor; [|auto].
      intro Hin. apply Hnotin. apply in_map_iff in Hin.
      destruct Hin as (e' & Heq & Hin). apply filter_In in Hin.
      apply in_map_iff. exists e'. tauto.
Qed.

(* ------------------------------------------------------------------ *)
(** * Subscriptions and the life of an entry *)

Lemma setDelete_absent (cb : Subscriber) (subs : list Subscriber) :
  setHas cb subs = false -> setDelete cb subs = subs.
Proof.
  unfold setHas, setDelete. induction subs as [|c rest IH]; cbn; [reflexivity|].
  destruct (Nat.eqb (fn c) (fn cb)); cbn; [discriminate|].
  intro H. now rewrite IH.
Qed.

Lemma setDelete_setAdd (cb : Subscriber) (subs : list Subscriber) :
  setHas cb subs = false -> setDelete cb (setAdd cb subs) = subs.
Proof.
  intro H. unfold setAdd. rewrite H. unfold setDelete.
  rewrite filter_app. cbn. rewrite Nat.eqb_refl. cbn. rewrite app_nil_r.
  now apply setDelete_absent.
Qed.

(** X25.  Subscribing a callback that is not registered appends it to
    the subscribers, and the returned action undoes exactly that: it
    reports [true], leaves the subscribers as they were before, and a
    second call of it reports [false] and changes nothing.  Subscribing
    and unsubscribing call no callback and leave the entries alone. *)
Theorem unsubscribe_undoes_subscribe (cb : Subscriber) (w : World) :
  setHas cb (subscribers w) = false ->
  let w1 := after (xrayStore.subscribe cb) w in
  let w2 := after (xrayStore.unsubscribe cb) w1 in
  subscribers w1 = subscribers w ++ [cb] /\
  result (xrayStore.unsubscribe cb) w1 = Ok true /\
  subscribers w2 = subscribers w /\
  result (xrayStore.unsubscribe cb) w2 = Ok false /\
  subscribers (after (xrayStore.unsubscribe cb) w2) = subscribers w /\
  calls w2 = calls w /\
  executions w2 = executions w.
Proof.
  intro Hnew. cbn zeta.
  unfold after, result, xrayStore.subscribe, xrayStore.unsubscribe, bind, read, write, ret.
  cbn [fst snd subscribers with_subscribers calls executions].
  unfold setAdd. rewrite Hnew.
  assert (Hhas : setHas cb (subscribers w ++ [cb]) = true).
  { unfold setHas. rewrite existsb_app. cbn. rewrite Nat.eqb_refl.
    now rewrite orb_true_r. }
  assert (Hdel : setDelete cb (subscribers w ++ [cb]) = subscribers w).
  { pose proof (setDelete_setAdd cb (subscribers w) Hnew) as H.
    unfold setAdd in H. now rewrite Hnew in H. }
  rewrite Hhas, Hdel, Hnew, (setDelete_absent _ _ Hnew). auto 10.
Qed.

(** X26.  When every subscriber returns and none of them calls the
    store while the pass runs, [save] returns and has called the
    subscribers in the order of their registration, each with the saved
    execution: every registered function exactly once, no other function
    at all, and the subscribers are as they were. *)
Theorem save_notifies_every_subscriber_once
  (storeCalls : nat -> XRayExecution -> list StoreCall)
  (fuel : nat) (r : ref) (w : World) :
  NoDup (map fn (subscribers w)) ->
  (forall c, In c (subscribers w) -> body c (execObjs w r) = Normal) ->
  (forall c, In c (subscribers w) -> storeCalls (fn c) (execObjs w r) = []) ->
  (List.length (subscribers w) < fuel)%nat ->
  exists w',
    xrayStore.saveLive storeCalls fuel r w = Some (Ok tt, w') /\
    calls w' = calls w ++ notifications (subscribers w) r /\
    subscribers w' = subscribers w /\
    (forall c, In c (subscribers w) ->
       timesNotified (fn c) (calls w') = S (timesNotified (fn c) (calls w))) /\
    (forall f, ~ In f (map fn (subscribers w)) ->
       timesNotified f (calls w') = timesNotified f (calls w)).
Proof.
  intros Hset Hreturn Hquiet Hfuel.
  rewrite (saveLive_quiet storeCalls fuel r w Hquiet Hfuel).
  destruct (save_notifies_all r w Hreturn) as [Hres Hcalls].
  exists (after (xrayStore.save r) w).
  split; [unfold result, after in *; destruct (xrayStore.save r w); cbn in *; now subst|].
  split; [exact Hcalls|]. split; [|split].
  - unfold after. now rewrite save_spec.
  - intros c Hin. rewrite Hcalls, timesNotified_app, timesNotified_notifications.
    rewrite registrations_present; [lia | exact Hset | now apply in_map].
  - intros f Hf. rewrite Hcalls, timesNotified_app, timesNotified_notifications.
    rewrite registrations_absent by assumption. lia.
Qed.


(** X28.  Deleting the entry of an execution that is still being built
    does not detach it from the store: the next terminal call of an
    autosaving instance whose hooks and subscribers return stores the
    execution again under its id, now as the last entry. *)
Theorem autosave_restores_a_deleted_entry
  (b : StepBuilder) (t : Terminal) (w : World) :
  NoDup (map fst (executions w)) ->
  quiet (this b) w ->
  autoSave (this b) = true ->
  let e := execution (this b) in
  let id := exec_id (execObjs w e) in
  let w1 := after (xrayStore.delete id) w in
  let w2 := after (terminal b t) w1 in
  result (xrayStore.get id) w1 = Ok None /\
  result (xrayStore.get id) w2 = Ok (Some e) /\
  map fst (executions w2) = map fst (executions w1) ++ [id].
Proof.
  intros Huniq Hq Hsave. cbn zeta.
  split; [cbn; now rewrite mapGet_mapDelete|].
  assert (Hgone : mapHas (exec_id (execObjs w (execution (this b))))
                    (mapDelete (exec_id (execObjs w (execution (this b)))) (executions w))
                  = false)
    by (unfold mapHas; now rewrite mapGet_mapDelete).
  destruct Hq as (_ & Hc & _ & Hs).
  destruct t as [output metrics | error]; cbn [terminal];
    unfold result, after, xrayStore.get, xrayStore.delete, Sdk.complete, Sdk.fail,
      newStep, push, bind, read, now, write, callOpt, when, call, ret; cbn;
    rewrite Hsave;
    (destruct (onStepComplete (config (this b))) as [hook|] eqn:Hhook; cbn;
     [rewrite (Hc hook eq_refl); cbn|]);
    rewrite save_spec; cbn;
    rewrite (forallb_neverThrows _ _ Hs); cbn;
    rewrite mapGet_mapSet, mapSet_keys, Hgone; auto.
Qed.

(* ------------------------------------------------------------------ *)
(** * The further properties at concrete inputs *)

(** X1, witness: saving the first of two stored executions again. *)
Lemma save_is_upsert_witness :
  result (xrayStore.get "1000-p7m2w8c4e") (after (xrayStore.save 0%nat) twoStored)
  = Ok (Some 1%nat).
Proof.
  destruct (save_is_upsert 0%nat twoStored) as (_ & Hother & _).
  rewrite (Hother "1000-p7m2w8c4e"%string); [vm_compute; reflexivity|].
  vm_compute. discriminate.
Defined.

(** X2, witness: the store of two executions. *)
Lemma store_keeps_one_entry_per_id_witness :
  NoDup (map fst (executions (after (xrayStore.delete "1000-k3j9x0q1z") twoStored))).
Proof.
  assert (H : NoDup (map fst (executions twoStored)))
    by (vm_compute; repeat constructor; cbn; intuition discriminate).
  exact (proj1 (proj2 (store_keeps_one_entry_per_id 0%nat "1000-k3j9x0q1z" twoStored H))).
Defined.

(** X3, witness: deleting the first of two stored executions. *)
Lemma delete_removes_the_entry_witness :
  result (xrayStore.delete "1000-k3j9x0q1z") twoStored = Ok true /\
  result (xrayStore.get "1000-k3j9x0q1z")
         (after (xrayStore.delete "1000-k3j9x0q1z") twoStored) = Ok None.
Proof.
  assert (H : NoDup (map fst (executions twoStored)))
    by (vm_compute; repeat constructor; cbn; intuition discriminate).
  destruct (delete_removes_the_entry "1000-k3j9x0q1z" twoStored H) as (H1 & H2 & _).
  split; [rewrite H1; vm_compute; reflexivity | exact H2].
Defined.

(** X7, witness: a range whose upper bound is below its lower bound. *)
Lemma findByTimeRange_is_inclusive_witness :
  result (xrayStore.findByTimeRange codeUnitCompare 2000 1000) twoStored = Ok [].
Proof.
  destruct (findByTimeRange_is_inclusive codeUnitCompare 2000 1000 twoStored)
    as (found & Hres & _ & Hempty).
  rewrite Hres. f_equal. apply Hempty. lia.
Defined.

(** X8, witness: the default order on two stored executions. *)
Lemma findAll_results_are_ordered_witness :
  exists found,
    result (xrayStore.findAll codeUnitCompare noOptions) twoStored = Ok found /\
    StronglySorted
      (fun a b => inOrder noOptions (sortKey noOptions (execObjs twoStored a))
                                    (sortKey noOptions (execObjs twoStored b)))
      found.
Proof.
  apply (findAll_results_are_ordered codeUnitCompare noOptions twoStored).
  discriminate.
Defined.

(** X9, witness: two executions started at the same time. *)
Lemma findAll_keeps_store_order_among_equal_keys_witness :
  List.filter (fun r => sortKey noOptions (execObjs twoStored r) =? 1000)
              (InMemoryXRayStore.findAllIn codeUnitCompare twoStored (unpaginated noOptions))
  = [0%nat; 1%nat].
Proof.
  rewrite (findAll_keeps_store_order_among_equal_keys codeUnitCompare noOptions 1000
             twoStored); [vm_compute; reflexivity | discriminate].
Defined.

(** X10, witness: the second page of size one. *)
Lemma findAll_page_length_witness :
  List.length (InMemoryXRayStore.findAllIn codeUnitCompare twoStored
                 (with_limit (Some 1) (with_offset (Some 1) noOptions))) = 1%nat.
Proof.
  assert (HL : 0 < 1) by lia. assert (HO : 0 <= 1) by lia.
  destruct (findAll_page_length codeUnitCompare noOptions 1 1 twoStored HL HO) as [_ H].
  rewrite H. vm_compute. reflexivity.
Defined.

(** X11, witness: [findAll({ offset: -1 })] on two stored executions. *)
Lemma findAll_negative_pagination_witness :
  InMemoryXRayStore.findAllIn codeUnitCompare twoStored
    (with_limit None (with_offset (Some (- (1))) noOptions)) = [].
Proof.
  assert (Hk : 0 < 1) by lia.
  destruct (findAll_negative_pagination codeUnitCompare noOptions 1 twoStored Hk)
    as [_ H].
  apply H. vm_compute. discriminate.
Defined.

(** X12, witness: [createXRay()] in a world that has just started. *)
Lemma new_execution_is_running_and_saved_witness :
  let w' := after (Sdk.new noConfig) (freshWorld steadyClock) in
  mapGet (exec_id (execObjs w' 0%nat)) (executions w') = Some 0%nat.
Proof.
  destruct (new_execution_is_running_and_saved noConfig (freshWorld steadyClock))
    as (_ & _ & _ & _ & _ & _ & Hsaved & _).
  destruct Hsaved as [H _]; [discriminate|]. exact H.
Defined.

(** X13, witness: a step completed on an instance with [autoSave: false]. *)
Lemma without_autoSave_the_store_is_untouched_witness :
  let w := after (Sdk.createXRay silentConfig) (freshWorld steadyClock) in
  let b := {| this := {| execution := 0%nat; config := silentConfig; autoSave := false |};
              stepData := 0%nat; startTime := 1000 |} in
  executions (after (terminal b (Complete VNull None)) w) = executions w.
Proof.
  intros w b.
  destruct (without_autoSave_the_store_is_untouched b (Complete VNull None) None w eq_refl)
    as [[H _] _].
  exact H.
Defined.

(** X14, witness: a second instance beside one that has an open step. *)
Lemma new_execution_has_its_own_steps_witness :
  let b := {| this := {| execution := 1%nat; config := noConfig; autoSave := true |};
              stepData := 1%nat; startTime := 1000 |} in
  stepsOf (after (terminal b (Fail "late")) (after (Sdk.new noConfig) oneOpen)) 0%nat
  = stepsOf oneOpen 0%nat.
Proof.
  intro b.
  assert (H1 : (exec_steps (execObjs oneOpen 0%nat) < nextArray oneOpen)%nat)
    by (vm_compute; lia).
  assert (H2 : (0 < nextExec oneOpen)%nat) by (vm_compute; lia).
  assert (H3 : execution (this b) = nextExec oneOpen) by (vm_compute; reflexivity).
  exact (proj1 (new_execution_has_its_own_steps noConfig 0%nat b (Fail "late") oneOpen
                  H1 H2 H3)).
Defined.


(** X16, witness: a step failing after the first [finalize]. *)
Lemma finalize_again_recomputes_witness :
  exec_status
    (execObjs (after (Sdk.finalize xray0 None)
                 (after (Sdk.fail builder0 "timeout")
                    (after (Sdk.finalize xray0 (Some (VNum 1))) oneOpen)))
              (execution xray0))
  = failed.
Proof.
  exact (proj2 (proj2 (proj2
           (finalize_again_recomputes xray0 (Some (VNum 1)) None builder0 "timeout"
              oneOpen eq_refl)))).
Defined.

(** X17, witness: a copy of the steps taken before the step completes. *)
Lemma getSteps_is_a_detached_copy_witness :
  arrays (after (terminal builder0 (Complete VNull None)) (after (Sdk.getSteps xray0) oneOpen))
         (nextArray oneOpen)
  = stepsOf oneOpen (execution xray0).
Proof.
  assert (H1 : (exec_steps (execObjs oneOpen (execution xray0)) < nextArray oneOpen)%nat)
    by (vm_compute; lia).
  destruct (getSteps_is_a_detached_copy xray0 0%nat builder0 (Complete VNull None) oneOpen
              H1 eq_refl) as (_ & _ & _ & H & _).
  exact H.
Defined.

(** X18, witness: a step completed on a stored execution. *)
Lemma execution_keeps_its_store_entry_witness :
  map fst (executions (after (terminal builder0 (Complete VNull None)) oneOpen))
  = map fst (executions oneOpen).
Proof.
  assert (H : mapGet (exec_id (execObjs oneOpen (execution (this builder0))))
                (executions oneOpen) = Some (execution (this builder0)))
    by (vm_compute; reflexivity).
  destruct (execution_keeps_its_store_entry builder0 (Complete VNull None) None oneOpen H)
    as [(_ & Hkeys & _) _].
  exact Hkeys.
Defined.

(** X19, witness: [withInput] called twice around [withReasoning]. *)
Lemma terminal_record_carries_the_last_staged_values_witness :
  let w := after (Sdk.createXRay noConfig) (freshWorld steadyClock) in
  let ss := [WithInput (VNum 1); WithReasoning "narrowed"; WithInput (VNum 2)] in
  let w2 := after (chain builder0 ss) (after (Sdk.step xray0 "Search" (Some search)) w) in
  step_input (stepObjs (after (terminal builder0 (Complete VNull None)) w2) (nextStep w2))
  = Some (VNum 2).
Proof.
  intros w ss w2.
  assert (Hb : result (Sdk.step xray0 "Search" (Some search)) w = Ok builder0)
    by (vm_compute; reflexivity).
  assert (Hsubs : subscribers w = []) by (vm_compute; reflexivity).
  destruct (terminal_record_carries_the_last_staged_values xray0 "Search" (Some search)
              ss (Complete VNull None) w builder0 eq_refl eq_refl Hsubs Hb)
    as (_ & _ & H & _).
  exact H.
Defined.

(** X20, witness: an instance whose [onStepComplete] always throws. *)
Lemma throwing_step_hook_skips_the_autosave_witness :
  let i := {| execution := 0%nat; config := hookedConfig brokenHook; autoSave := true |} in
  let b := {| this := i; stepData := 0%nat; startTime := 1000 |} in
  let w := after (Sdk.step i "Search" None)
             (after (Sdk.createXRay (hookedConfig brokenHook)) (freshWorld steadyClock)) in
  result (terminal b (Complete VNull None)) w = Exn /\
  stepsOf (after (terminal b (Complete VNull None)) w) 0%nat = stepsOf w 0%nat ++ [nextStep w].
Proof.
  intros i b w.
  assert (H2 : forall s, body brokenHook s = Throws) by reflexivity.
  destruct (throwing_step_hook_skips_the_autosave b (Complete VNull None) brokenHook w
              eq_refl H2) as (Hr & Hs & _).
  split; [exact Hr | exact Hs].
Defined.

(** X21, witness: an instance whose [onExecutionComplete] always throws. *)
Lemma throwing_completion_hook_skips_the_final_save_witness :
  let hook := {| fn := 7%nat; body := fun _ : XRayExecution => Throws |} in
  let cfg := {| executionName := None; cfg_description := None; cfg_context := None;
                cfg_tags := None; cfg_autoSave := None; onStepStart := None;
                onStepComplete := None; onExecutionComplete := Some hook |} in
  let i := {| execution := 0%nat; config := cfg; autoSave := true |} in
  let w := after (Sdk.createXRay cfg) (freshWorld steadyClock) in
  result (Sdk.finalize i None) w = Exn /\
  executions (after (Sdk.finalize i None) w) = executions w.
Proof.
  intros hook cfg i w.
  assert (H2 : forall e, body hook e = Throws) by reflexivity.
  destruct (throwing_completion_hook_skips_the_final_save i None hook w eq_refl H2)
    as (Hr & _ & _ & _ & He & _).
  split; [exact Hr | exact He].
Defined.

(** X24, witness: a live execution that is also among the given ones. *)
Lemma allExecutions_lists_the_live_execution_once_witness :
  let live := execObjs twoStored 0%nat in
  let given := [execObjs twoStored 0%nat; execObjs twoStored 1%nat] in
  NoDup (map exec_id (allExecutions (Some live) given)).
Proof.
  intros live given.
  destruct (allExecutions_lists_the_live_execution_once live given)
    as (_ & _ & _ & _ & _ & _ & _ & H & _).
  apply H. vm_compute. repeat constructor; cbn; intuition discriminate.
Defined.

(** X25, witness: one subscriber on an empty store. *)
Lemma unsubscribe_undoes_subscribe_witness :
  subscribers (after (xrayStore.unsubscribe observer)
                 (after (xrayStore.subscribe observer) twoStored))
  = subscribers twoStored.
Proof.
  assert (H : setHas observer (subscribers twoStored) = false) by (vm_compute; reflexivity).
  destruct (unsubscribe_undoes_subscribe observer twoStored H) as (_ & _ & H3 & _).
  exact H3.
Defined.

(** X26, witness: two subscribers that return. *)
Lemma save_notifies_every_subscriber_once_witness :
  let w := after (xrayStore.subscribe listener ;; xrayStore.subscribe observer) twoStored in
  exists w',
    xrayStore.saveLive noStoreCalls 3 1%nat w = Some (Ok tt, w') /\
    calls w' = calls w ++ [Notified 2 1%nat; Notified 3 1%nat].
Proof.
  intro w.
  assert (H1 : NoDup (map fn (subscribers w)))
    by (vm_compute; repeat constructor; cbn; intuition discriminate).
  assert (H2 : forall c, In c (subscribers w) -> body c (execObjs w 1%nat) = Normal).
  { intros c Hin. vm_compute in Hin. destruct Hin as [<-|[<-|[]]]; reflexivity. }
  assert (H3 : forall c, In c (subscribers w) ->
                         noStoreCalls (fn c) (execObjs w 1%nat) = [])
    by reflexivity.
  assert (H4 : (List.length (subscribers w) < 3)%nat) by (vm_compute; lia).
  destruct (save_notifies_every_subscriber_once noStoreCalls 3 1%nat w H1 H2 H3 H4)
    as (w' & Hrun & Hcalls & _).
  exists w'. split; [exact Hrun|].
  rewrite Hcalls. vm_compute. reflexivity.
Defined.


(** X28, witness: the entry of an open execution deleted, then its step
    completed. *)
Lemma autosave_restores_a_deleted_entry_witness :
  result (xrayStore.get "1000-k3j9x0q1z")
    (after (terminal builder0 (Complete VNull None))
       (after (xrayStore.delete "1000-k3j9x0q1z") oneOpen))
  = Ok (Some 0%nat).
Proof.
  assert (H1 : NoDup (map fst (executions oneOpen)))
    by (vm_compute; repeat constructor; cbn; intuition discriminate).
  assert (H2 : quiet (this builder0) oneOpen).
  { repeat split; try discriminate. intros cb Hin. vm_compute in Hin. destruct Hin. }
  destruct (autosave_restores_a_deleted_entry builder0 (Complete VNull None) oneOpen
              H1 H2 eq_refl) as (_ & H & _).
  vm_compute in H. vm_compute. exact H.
Defined.
